(** * bacterial_growth_converter.py: a shallow embedding and its properties

    The script reads a microplate-reader export (a spreadsheet addressed by
    raw row and column position), extracts the well names, the time column
    and one optical-density series per well, and writes the long-format
    table Well, Time_s, Time_h, OD, sorted by well and time.  A second
    routine checks the columns of the written CSV file.

    Numbers are Python floats, that is IEEE-754 binary64 values: they are
    modelled by Rocq's primitive floats, whose operations are the hardware
    ones; where a statement is about the exact value of a float, that value
    is a rational number.  Exceptions are modelled by a result type; the
    [try]/[except] of the conversion routine turns every raised exception
    into [false]. *)

From Stdlib Require Import ZArith Bool String Ascii Lia Floats List.
From Stdlib Require Import Sorted Permutation.
From Stdlib Require Import QArith Qabs Qpower Lqa.
Close Scope Q_scope.
Import ListNotations.

Set Implicit Arguments.
Set Warnings "-inexact-float".

(** ** Exceptions *)

Inductive exn : Type :=
| IndexError   (* df.iloc out of bounds *)
| ValueError   (* raised by the script when no row was produced *)
| KeyError     (* df[col] on an absent column *)
| OSError.     (* pd.read_excel / to_csv / pd.read_csv failed *)

Inductive result (A : Type) : Type :=
| Ok (a : A)
| Raise (e : exn).

Arguments Ok {A} a.
Arguments Raise {A} e.

Definition bind {A B : Type} (c : result A) (k : A -> result B) : result B :=
  match c with
  | Ok a => k a
  | Raise e => Raise e
  end.

Notation "x <- c ;; k" := (bind c (fun x => k))
  (at level 61, c at next level, right associativity).

(** ** Python's [round(x, ndigits)] on floats

    CPython rounds the exact binary value of [x] to [ndigits] decimal
    places, ties to even, and returns the double nearest to that decimal;
    zeros, infinities and NaN are returned unchanged. *)

Open Scope Z_scope.

Definition round_half_even (n d : Z) : Z :=
  let q := n / d in
  let r := n mod d in
  match 2 * r ?= d with
  | Lt => q
  | Gt => q + 1
  | Eq => if Z.even q then q else q + 1
  end.

(** The integer [k] such that [k / 10^ndigits] is [m * 2^e] rounded to
    [ndigits] decimal places. *)
Definition decimal_digits (m : positive) (e ndigits : Z) : Z :=
  if 0 <=? e then Zpos m * 2 ^ e * 10 ^ ndigits
  else round_half_even (Zpos m * 10 ^ ndigits) (2 ^ (- e)).

Definition SFround (x : spec_float) (ndigits : Z) : spec_float :=
  match x with
  | S754_finite s m e =>
      match decimal_digits m e ndigits with
      | Zpos k =>
          SFdiv prec emax (S754_finite s k 0)
                (S754_finite false (Z.to_pos (10 ^ ndigits)) 0)
      | _ => S754_zero s
      end
  | _ => x
  end.

Definition round (x : float) (ndigits : Z) : float :=
  SF2Prim (SFround (Prim2SF x) ndigits).

Close Scope Z_scope.

(** ** The exact value of a float

    A finite binary64 number is [m * 2^e] up to its sign, a rational
    number; zeros have value 0 (infinities and NaN are given 0 as well,
    and are excluded where the value matters). *)

Definition SFmag (x : spec_float) : Q :=
  match x with
  | S754_finite _ m e => (inject_Z (Zpos m) * 2 ^ e)%Q
  | _ => 0%Q
  end.

Definition SFsign (x : spec_float) : bool :=
  match x with
  | S754_zero s | S754_infinity s | S754_finite s _ _ => s
  | S754_nan => false
  end.

Definition SF2Q (x : spec_float) : Q :=
  if SFsign x then (- SFmag x)%Q else SFmag x.

Definition F2Q (x : float) : Q := SF2Q (Prim2SF x).

(** [x] is a zero or a finite number of sign [s]. *)
Definition shaped (s : bool) (x : spec_float) : Prop :=
  x = S754_zero s \/ exists m e, x = S754_finite s m e.

(** [x] is a valid zero or finite number of sign [s] whose magnitude is
    within [err] of [X]. *)
Definition approx (s : bool) (x : spec_float) (X err : Q) : Prop :=
  valid_binary x = true
  /\ (x = S754_zero s \/ exists m e, x = S754_finite s m e)
  /\ (Qabs (SFmag x - X) <= err)%Q.

(** ** Python's [str.strip()]

    Strings are byte strings; the white space removed is the ASCII white
    space of [str.isspace]: 0x09-0x0D, 0x1C-0x1F and the blank. *)

Definition is_space (c : ascii) : bool :=
  let n := nat_of_ascii c in
  ((9 <=? n) && (n <=? 13)) || ((28 <=? n) && (n <=? 32)).

Fixpoint lstrip (s : string) : string :=
  match s with
  | EmptyString => EmptyString
  | String c s' => if is_space c then lstrip s' else s
  end.

Fixpoint rstrip (s : string) : string :=
  match s with
  | EmptyString => EmptyString
  | String c s' =>
      match rstrip s' with
      | EmptyString => if is_space c then EmptyString else String c EmptyString
      | r => String c r
      end
  end.

Definition strip (s : string) : string := rstrip (lstrip s).

(** ** The grid read from the spreadsheet *)

(** A cell is empty (pandas yields NaN), numeric or text. *)
Inductive Cell : Type :=
| CEmpty
| CNum (x : float)
| CText (s : string).

(** [pd.read_excel(..., header=None)]: a rectangular frame of
    [shape = (nrows, ncols)], addressed by position. *)
Record DataFrame : Type := {
  nrows : nat;
  ncols : nat;
  cell_at : nat -> nat -> Cell
}.

(** [df.iloc[r, c]] raises IndexError outside the frame. *)
Definition iloc (df : DataFrame) (r c : nat) : result Cell :=
  if (r <? nrows df) && (c <? ncols df) then Ok (cell_at df r c)
  else Raise IndexError.

(** [pd.notna]: false on missing values, NaN included. *)
Definition notna (v : Cell) : bool :=
  match v with
  | CEmpty => false
  | CNum x => negb (is_nan x)
  | CText _ => true
  end.

(** Python's [range(a, b)]. *)
Definition range (a b : nat) : list nat := seq a (b - a).

(** Python's [enumerate]. *)
Definition enumerate {A : Type} (l : list A) : list (nat * A) :=
  combine (seq 0 (length l)) l.

(** One output record: the dict appended to [output_data]. *)
Record Row : Type := {
  Well : string;
  Time_s : float;
  Time_h : float;
  OD : float
}.

(** ** [output_df.sort_values(['Well', 'Time_s'])]

    With several keys pandas sorts stably: by the well name in the order
    of Python strings, then by the time in numeric order, missing values
    (NaN) last. *)

Definition time_leb (a b : float) : bool :=
  if is_nan b then true
  else if is_nan a then false
  else (a <=? b)%float.

Definition row_leb (r1 r2 : Row) : bool :=
  match String.compare (Well r1) (Well r2) with
  | Lt => true
  | Eq => time_leb (Time_s r1) (Time_s r2)
  | Gt => false
  end.

Fixpoint insert_row (r : Row) (l : list Row) : list Row :=
  match l with
  | [] => [r]
  | h :: t => if row_leb r h then r :: l else h :: insert_row r t
  end.

Definition sort_values (l : list Row) : list Row :=
  fold_right insert_row [] l.

(** Two rows have the same key when they name the same well and their
    times are numerically equal, or both missing. *)
Definition time_eqb (a b : float) : bool :=
  (is_nan a && is_nan b) || (a =? b)%float.

Definition same_key (r1 r2 : Row) : bool :=
  String.eqb (Well r1) (Well r2) && time_eqb (Time_s r1) (Time_s r2).

Definition row_le (r1 r2 : Row) : Prop := row_leb r1 r2 = true.

(** No two rows of the list have the same key. *)
Definition distinct_keys (l : list Row) : Prop :=
  ForallOrdPairs (fun r1 r2 => same_key r1 r2 = false) l.

(** ** [validate_csv_output] *)

(** The column types [pd.read_csv] infers. *)
Inductive dtype : Type :=
| int64
| uint64
| float64
| bool_
| object_.

(** [pd.api.types.is_numeric_dtype]: pandas counts booleans as numeric. *)
Definition is_numeric_dtype (d : dtype) : bool :=
  match d with
  | object_ => false
  | _ => true
  end.

(** The frame read from the CSV file, as far as the routine looks at it:
    its columns, each with its type. *)
Definition CsvFrame : Type := list (string * dtype).

Definition columns (df : CsvFrame) : list string := map fst df.

Definition in_columns (col : string) (df : CsvFrame) : bool :=
  existsb (String.eqb col) (columns df).

(** [df[col]]: raises KeyError when the column is absent. *)
Fixpoint getitem (df : CsvFrame) (col : string) : result dtype :=
  match df with
  | [] => Raise KeyError
  | (name, d) :: rest => if String.eqb name col then Ok d else getitem rest col
  end.

Definition required_columns : list string :=
  ["Well"; "Time_s"; "Time_h"; "OD"]%string.

Definition validate_body (df : CsvFrame) : result bool :=
  let missing_columns :=
    filter (fun col => negb (in_columns col df)) required_columns in
  match missing_columns with
  | _ :: _ => Ok false
  | [] =>
      t_s <- getitem df "Time_s" ;;
      if negb (is_numeric_dtype t_s) then Ok false
      else
        t_h <- getitem df "Time_h" ;;
        if negb (is_numeric_dtype t_h) then Ok false
        else
          od <- getitem df "OD" ;;
          if negb (is_numeric_dtype od) then Ok false
          else Ok true
  end.

Definition validate_csv_output (read_csv : result CsvFrame) : bool :=
  match (df <- read_csv ;; validate_body df) with
  | Ok b => b
  | Raise _ => false
  end.

(** ** The outside of [main] *)

(** What [main] sees of the file system: whether a path exists, and the
    outcomes of [pd.read_excel] on the input path, of [to_csv] on the
    output path and of [pd.read_csv] on the output path afterwards. *)
Record World : Type := {
  path_exists : string -> bool;
  read_excel_at : string -> result DataFrame;
  to_csv_at : string -> list Row -> result unit;
  read_csv_at : string -> result CsvFrame
}.

(** The message [main] ends on. *)
Inductive message : Type :=
| Completed              (* line 227 *)
| CompletedWithWarning   (* line 229 *)
| ConversionFailed       (* line 231 *)
| InputNotFound          (* line 218 *)
| UsageShown.            (* lines 235-243 *)

(** ** Sample frames *)

(** The export of the example: eight leading rows, the header row naming
    wells A1 and A2 from column 2 on, and three data rows with the time in
    column 1.  The cells the layout leaves unspecified are [other r c]. *)
Definition example_frame (other : nat -> nat -> Cell) : DataFrame :=
  {| nrows := 12;
     ncols := 4;
     cell_at := fun r c =>
       match r, c with
       | 8, 2 => CText "A1"
       | 8, 3 => CText "A2"
       | 9, 1 => CNum 0
       | 10, 1 => CNum 30
       | 11, 1 => CNum 60
       | 9, 2 => CNum 0.1
       | 10, 2 => CNum 0.15
       | 11, 2 => CNum 0.2
       | 9, 3 => CNum 0.11
       | 10, 3 => CNum 0.16
       | 11, 3 => CNum 0.21
       | _, _ => other r c
       end |}.

Definition blank (r c : nat) : Cell := CEmpty.

(** A sheet that carries a title in every cell the layout leaves
    unspecified. *)
Definition titled (r c : nat) : Cell := CText "Plate 1".

(** The same export with the second reading of well A2 missing. *)
Definition gap_frame : DataFrame :=
  {| nrows := 12;
     ncols := 4;
     cell_at := fun r c =>
       match r, c with
       | 10, 3 => CEmpty
       | _, _ => cell_at (example_frame blank) r c
       end |}.

(** The same export with the wells named B1 and A1, in that order. *)
Definition unsorted_frame : DataFrame :=
  {| nrows := 12;
     ncols := 4;
     cell_at := fun r c =>
       match r, c with
       | 8, 2 => CText "B1"
       | 8, 3 => CText "A1"
       | _, _ => cell_at (example_frame blank) r c
       end |}.

(** A header row without any well name above one timepoint. *)
Definition no_well_frame : DataFrame :=
  {| nrows := 10;
     ncols := 4;
     cell_at := fun r c =>
       match r, c with
       | 9, 1 => CNum 0
       | _, _ => CEmpty
       end |}.

(** Two header cells naming the same well above a single timepoint. *)
Definition twin_frame : DataFrame :=
  {| nrows := 10;
     ncols := 4;
     cell_at := fun r c =>
       match r, c with
       | 8, 2 => CText "A1"
       | 8, 3 => CText "A1"
       | 9, 1 => CNum 0
       | 9, 2 => CNum 0.1
       | 9, 3 => CNum 0.2
       | _, _ => CEmpty
       end |}.

Definition twin_rows : list Row :=
  [ {| Well := "A1"; Time_s := 0; Time_h := 0; OD := 0.1 |};
    {| Well := "A1"; Time_s := 0; Time_h := 0; OD := 0.2 |} ].

(** One well and one timepoint of 2^53 - 1 minutes. *)
Definition huge_time_frame : DataFrame :=
  {| nrows := 10;
     ncols := 3;
     cell_at := fun r c =>
       match r, c with
       | 8, 2 => CText "A1"
       | 9, 1 => CNum 9007199254740991
       | 9, 2 => CNum 0.1
       | _, _ => CEmpty
       end |}.

(** What the conversion of [huge_time_frame] yields. *)
Definition huge_row : Row :=
  {| Well := "A1";
     Time_s := 0x1.dffffffffffffp+58;
     Time_h := 0x1.1111111111111p+47;
     OD := 0.1 |}.

(** A file system where the spreadsheet exists and holds the example
    export, writing succeeds, and the written file cannot be read back. *)
Definition sample_world : World :=
  {| path_exists := fun p => String.eqb p "plate.xls";
     read_excel_at := fun _ => Ok (example_frame blank);
     to_csv_at := fun _ _ => Ok tt;
     read_csv_at := fun _ => Raise OSError |}.

(** Stand-ins for Python's [float] on strings and [str] on numbers where
    a closed example needs them: the sample frames keep numbers in numeric
    cells and names in text cells, so neither conversion is consulted. *)
Definition text_is_no_number (s : string) : option float := None.
Definition number_as_text (x : float) : string := EmptyString.

Definition sample_rows : list Row :=
  [ {| Well := "A1"; Time_s := 0; Time_h := 0; OD := 0.1 |};
    {| Well := "A1"; Time_s := 1800; Time_h := 0.5; OD := 0.15 |};
    {| Well := "A1"; Time_s := 3600; Time_h := 1; OD := 0.2 |};
    {| Well := "A2"; Time_s := 0; Time_h := 0; OD := 0.11 |};
    {| Well := "A2"; Time_s := 1800; Time_h := 0.5; OD := 0.16 |};
    {| Well := "A2"; Time_s := 3600; Time_h := 1; OD := 0.21 |} ].

(** What the conversion of [unsorted_frame] yields. *)
Definition sample_rows_B1 : list Row :=
  [ {| Well := "A1"; Time_s := 0; Time_h := 0; OD := 0.11 |};
    {| Well := "A1"; Time_s := 1800; Time_h := 0.5; OD := 0.16 |};
    {| Well := "A1"; Time_s := 3600; Time_h := 1; OD := 0.21 |};
    {| Well := "B1"; Time_s := 0; Time_h := 0; OD := 0.1 |};
    {| Well := "B1"; Time_s := 1800; Time_h := 0.5; OD := 0.15 |};
    {| Well := "B1"; Time_s := 3600; Time_h := 1; OD := 0.2 |} ].

(** The fixed layout of the export. *)
Definition header_row : nat := 8.
Definition data_start_row : nat := 9.
Definition time_col : nat := 1.
Definition data_col_start : nat := 2.

Section Converter.

(** Python's built-in conversions between [str] and [float], which the
    script calls and does not define: [float(s)] on a string ([None]
    when it raises ValueError) and [str(x)] on a number. *)
Variable float_of_str : string -> option float.
Variable str_of_num : float -> string.

(** [float(v)] in a [try]: [None] stands for the exception. *)
Definition py_float (v : Cell) : option float :=
  match v with
  | CEmpty => Some nan
  | CNum x => Some x
  | CText s => float_of_str s
  end.

(** [str(v)]. *)
Definition py_str (v : Cell) : string :=
  match v with
  | CEmpty => "nan"
  | CNum x => str_of_num x
  | CText s => s
  end.

(** Lines 64-70: the well names, up to the first missing header cell. *)
Fixpoint scan_wells (df : DataFrame) (cols : list nat) : result (list string) :=
  match cols with
  | [] => Ok []
  | col_idx :: rest =>
      well <- iloc df header_row col_idx ;;
      if notna well then
        names <- scan_wells df rest ;;
        Ok (strip (py_str well) :: names)
      else Ok []
  end.

Definition extract_well_names (df : DataFrame) : result (list string) :=
  scan_wells df (range data_col_start (ncols df)).

(** Lines 76-85: the time series in minutes, up to the first cell that
    is missing or that [float] rejects. *)
Fixpoint scan_times (df : DataFrame) (rows : list nat) : result (list float) :=
  match rows with
  | [] => Ok []
  | row_idx :: rest =>
      time_val <- iloc df row_idx time_col ;;
      if notna time_val then
        match py_float time_val with
        | Some t => ts <- scan_times df rest ;; Ok (t :: ts)
        | None => Ok []
        end
      else Ok []
  end.

Definition extract_time_minutes (df : DataFrame) : result (list float) :=
  scan_times df (range data_start_row (nrows df)).

(** Lines 103-112: the OD values of one column; a cell that is missing
    or not a number is skipped. *)
Fixpoint scan_od (df : DataFrame) (col_idx : nat) (rows : list (nat * float))
  : result (list float) :=
  match rows with
  | [] => Ok []
  | (row_idx, _) :: rest =>
      let actual_row := data_start_row + row_idx in
      if actual_row <? nrows df then
        od_val <- iloc df actual_row col_idx ;;
        if notna od_val then
          match py_float od_val with
          | Some x => ods <- scan_od df col_idx rest ;; Ok (x :: ods)
          | None => scan_od df col_idx rest
          end
        else scan_od df col_idx rest
      else scan_od df col_idx rest
  end.

(** Lines 117-124. *)
Definition make_row (well_name : string) (p : float * float) : Row :=
  let (time_min, od_val) := p in
  let time_s := (time_min * 60)%float in
  let time_h := (time_min / 60)%float in
  {| Well := well_name;
     Time_s := round time_s 1;
     Time_h := round time_h 3;
     OD := round od_val 4 |}.

(** Lines 115-124: the rows one well contributes. *)
Definition well_rows (well_name : string) (time_minutes od_values : list float)
  : list Row :=
  if length od_values =? length time_minutes then
    map (make_row well_name) (combine time_minutes od_values)
  else [].

(** Lines 96-127: the loop over the wells. *)
Fixpoint well_loop (df : DataFrame) (time_minutes : list float)
         (wells : list (nat * string)) : result (list Row) :=
  match wells with
  | [] => Ok []
  | (well_idx, well_name) :: rest =>
      let col_idx := data_col_start + well_idx in
      if ncols df <=? col_idx then Ok []
      else
        od_values <- scan_od df col_idx (enumerate time_minutes) ;;
        more <- well_loop df time_minutes rest ;;
        Ok (well_rows well_name time_minutes od_values ++ more)
  end.

(** Lines 63-127: [output_data] as it stands before line 129. *)
Definition extract_output_data (df : DataFrame) : result (list Row) :=
  well_names <- extract_well_names df ;;
  time_minutes <- extract_time_minutes df ;;
  well_loop df time_minutes (enumerate well_names).

(** Lines 129-136: an empty [output_data] raises ValueError, otherwise
    the frame is sorted. *)
Definition convert_rows (df : DataFrame) : result (list Row) :=
  output_data <- extract_output_data df ;;
  match output_data with
  | [] => Raise ValueError
  | _ :: _ => Ok (sort_values output_data)
  end.

(** The body of the [try]: [read_excel] is the outcome of
    [pd.read_excel(excel_file, ...)] and [to_csv] that of
    [output_df.to_csv(output_csv, ...)]. *)
Definition conversion_body (read_excel : result DataFrame)
           (to_csv : list Row -> result unit) : result (list Row) :=
  df <- read_excel ;;
  output_df <- convert_rows df ;;
  _ <- to_csv output_df ;;
  Ok output_df.

(** Lines 44-168: [except Exception] returns False. *)
Definition convert_bacterial_growth_data (read_excel : result DataFrame)
           (to_csv : list Row -> result unit) : bool :=
  match conversion_body read_excel to_csv with
  | Ok _ => true
  | Raise _ => false
  end.

(** Lines 207-244: the exit status of the process (1 for [sys.exit(1)],
    0 when [main] returns) and the message it ends on.  [argv] is
    [sys.argv], the script name first. *)
Definition main (w : World) (argv : list string) : nat * message :=
  match argv with
  | [_; excel_file; output_csv] =>
      if negb (path_exists w excel_file) then (1, InputNotFound)
      else
        let success :=
          convert_bacterial_growth_data (read_excel_at w excel_file)
                                        (to_csv_at w output_csv) in
        if success then
          if validate_csv_output (read_csv_at w output_csv) then (0, Completed)
          else (0, CompletedWithWarning)
        else (1, ConversionFailed)
  | _ => (1, UsageShown)
  end.

(** *** Descriptions used in the statements *)


(** Two frames of the same shape that hold the same cells in the header
    row from column 2 on, in the time column from row 9 on and in the
    block of readings. *)
Definition same_data (df1 df2 : DataFrame) : Prop :=
  nrows df1 = nrows df2
  /\ ncols df1 = ncols df2
  /\ (forall c, data_col_start <= c < ncols df1 ->
                cell_at df1 header_row c = cell_at df2 header_row c)
  /\ (forall r, data_start_row <= r < nrows df1 ->
                cell_at df1 r time_col = cell_at df2 r time_col)
  /\ (forall r c, data_start_row <= r < nrows df1 ->
                  data_col_start <= c < ncols df1 ->
                  cell_at df1 r c = cell_at df2 r c).

(** What lines 104-112 keep of the cell of column [col_idx] in time row
    [i]: the parsed number, or nothing when the cell is skipped. *)
Definition od_cell (df : DataFrame) (col_idx i : nat) : option float :=
  let v := cell_at df (data_start_row + i) col_idx in
  if (data_start_row + i <? nrows df) && notna v then py_float v else None.

Definition keep (o : option float) : list float :=
  match o with
  | Some x => [x]
  | None => []
  end.

(** The list [od_values] of a column over [T] time rows. *)
Definition od_values (df : DataFrame) (col_idx T : nat) : list float :=
  flat_map (fun i => keep (od_cell df col_idx i)) (seq 0 T).

(** The rows the well of index [fst w] and name [snd w] adds to
    [output_data]. *)
Definition contribution (df : DataFrame) (time_minutes : list float)
           (w : nat * string) : list Row :=
  well_rows (snd w) time_minutes
            (od_values df (data_col_start + fst w) (length time_minutes)).

(** A well is accepted when as many values were kept as there are
    timepoints (line 115). *)
Definition accepted (df : DataFrame) (T : nat) (w : nat * string) : bool :=
  length (od_values df (data_col_start + fst w) T) =? T.

(** The two ways in which a lookup of the extraction leaves the frame. *)
Definition header_row_missing (df : DataFrame) : Prop :=
  nrows df <= header_row /\ data_col_start < ncols df.

Definition time_column_missing (df : DataFrame) : Prop :=
  ncols df <= time_col /\ data_start_row < nrows df.

(** A well is complete when none of its cells over the time range is
    skipped. *)
Definition complete (df : DataFrame) (T well_idx : nat) : Prop :=
  forall i, i < T -> od_cell df (data_col_start + well_idx) i <> None.

(** The cells of the time column from the first data row on. *)
Definition time_column (df : DataFrame) : list Cell :=
  map (fun r => cell_at df r time_col) (range data_start_row (nrows df)).

(** A cell the time loop accepts: not missing, and [float] succeeds. *)
Definition parseable (v : Cell) : bool :=
  notna v && match py_float v with Some _ => true | None => false end.

(** No two timepoints give the same Time_s. *)
Definition distinct_times (time_minutes : list float) : Prop :=
  ForallOrdPairs
    (fun t1 t2 => time_eqb (round (t1 * 60) 1) (round (t2 * 60) 1) = false)
    time_minutes.

(** *** The loops, step by step *)

Lemma bind_Ok (A B : Type) (c : result A) (k : A -> result B) (b : B) :
  bind c k = Ok b -> exists a, c = Ok a /\ k a = Ok b.
Proof.
  destruct c as [a | e]; simpl; intros H.
  - exists a; split; [reflexivity | exact H].
  - discriminate H.
Qed.

Lemma iloc_inside (df : DataFrame) (r c : nat) :
  r < nrows df -> c < ncols df -> iloc df r c = Ok (cell_at df r c).
Proof.
  intros Hr Hc. unfold iloc.
  apply Nat.ltb_lt in Hr. apply Nat.ltb_lt in Hc.
  rewrite Hr, Hc. reflexivity.
Qed.

Lemma scan_od_from (df : DataFrame) (col_idx : nat) :
  col_idx < ncols df ->
  forall (l : list float) (k : nat),
    scan_od df col_idx (combine (seq k (length l)) l)
    = Ok (flat_map (fun i => keep (od_cell df col_idx i)) (seq k (length l))).
Proof.
  intros Hc l. induction l as [| t l IH]; intros k;
    cbn [length seq combine scan_od flat_map].
  - reflexivity.
  - rewrite (IH (S k)).
    assert (E : od_cell df col_idx k
                = if (data_start_row + k <? nrows df)
                     && notna (cell_at df (data_start_row + k) col_idx)
                  then py_float (cell_at df (data_start_row + k) col_idx)
                  else None) by reflexivity.
    destruct (data_start_row + k <? nrows df) eqn:Hr; cbn [andb] in E.
    + apply Nat.ltb_lt in Hr. rewrite (iloc_inside _ Hr Hc). cbn [bind].
      destruct (notna (cell_at df (data_start_row + k) col_idx)).
      * destruct (py_float (cell_at df (data_start_row + k) col_idx));
          rewrite E; reflexivity.
      * rewrite E; reflexivity.
    + rewrite E; reflexivity.
Qed.

Lemma scan_od_enumerate (df : DataFrame) (col_idx : nat) (time_minutes : list float) :
  col_idx < ncols df ->
  scan_od df col_idx (enumerate time_minutes)
  = Ok (od_values df col_idx (length time_minutes)).
Proof.
  intros Hc. unfold enumerate, od_values. apply scan_od_from. exact Hc.
Qed.

Lemma scan_wells_length (df : DataFrame) :
  forall (cols : list nat) (names : list string),
    scan_wells df cols = Ok names -> length names <= length cols.
Proof.
  induction cols as [| c cols IH]; simpl; intros names H.
  - injection H as <-. simpl. lia.
  - apply bind_Ok in H. destruct H as [well [_ H]].
    destruct (notna well).
    + apply bind_Ok in H. destruct H as [rest [Hrest H]].
      injection H as <-. simpl. apply IH in Hrest. lia.
    + injection H as <-. simpl. lia.
Qed.

Lemma extract_well_names_length (df : DataFrame) (names : list string) :
  extract_well_names df = Ok names ->
  data_col_start + length names <= Nat.max data_col_start (ncols df).
Proof.
  unfold extract_well_names, range. intros H.
  apply scan_wells_length in H. rewrite length_seq in H. lia.
Qed.

Lemma well_loop_from (df : DataFrame) (time_minutes : list float) :
  forall (names : list string) (k : nat),
    data_col_start + k + length names <= Nat.max (data_col_start + k) (ncols df) ->
    well_loop df time_minutes (combine (seq k (length names)) names)
    = Ok (flat_map (contribution df time_minutes)
                   (combine (seq k (length names)) names)).
Proof.
  induction names as [| name names IH]; intros k Hk;
    cbn [length seq combine well_loop flat_map].
  - reflexivity.
  - cbn [length] in Hk.
    assert (Hc : data_col_start + k < ncols df) by lia.
    destruct (ncols df <=? data_col_start + k) eqn:Hle.
    + apply Nat.leb_le in Hle. lia.
    + rewrite (scan_od_enumerate _ _ Hc). cbn [bind].
      rewrite (IH (S k)) by lia. reflexivity.
Qed.

(** [output_data] is the concatenation, in header order, of what each
    well contributes. *)
Lemma extract_output_data_wells (df : DataFrame)
      (well_names : list string) (time_minutes : list float) :
  extract_well_names df = Ok well_names ->
  extract_time_minutes df = Ok time_minutes ->
  extract_output_data df
  = Ok (flat_map (contribution df time_minutes) (enumerate well_names)).
Proof.
  intros Hw Ht. unfold extract_output_data. rewrite Hw, Ht. simpl.
  unfold enumerate. apply well_loop_from.
  apply extract_well_names_length in Hw. lia.
Qed.

(** *** The time column *)

Lemma scan_times_prefix (df : DataFrame) :
  time_col < ncols df ->
  forall rows : list nat,
    (forall r, In r rows -> r < nrows df) ->
    let column := map (fun r => cell_at df r time_col) rows in
    exists (ts : list float) (n : nat),
      scan_times df rows = Ok ts
      /\ n <= length column
      /\ forallb parseable (firstn n column) = true
      /\ map py_float (firstn n column) = map Some ts
      /\ (n < length column -> parseable (nth n column CEmpty) = false).
Proof.
  intros Hc. induction rows as [| r rows IH]; intros Hin column.
  - exists [], 0. subst column. simpl. repeat split; auto; lia.
  - assert (Hr : r < nrows df) by (apply Hin; left; reflexivity).
    destruct IH as (ts & n & Hscan & Hn & Hall & Hmap & Hstop).
    { intros r' Hr'. apply Hin. right. exact Hr'. }
    subst column. cbn [scan_times map].
    rewrite (iloc_inside _ Hr Hc). cbn [bind].
    destruct (notna (cell_at df r time_col)) eqn:Hna.
    + destruct (py_float (cell_at df r time_col)) as [t |] eqn:Hfl.
      * exists (t :: ts), (S n). rewrite Hscan. cbn [bind firstn forallb map length nth].
        unfold parseable at 1. rewrite Hna, Hfl. cbn [andb].
        repeat split.
        -- lia.
        -- exact Hall.
        -- f_equal. exact Hmap.
        -- intros Hlt. apply Hstop. lia.
      * exists [], 0. cbn [firstn forallb map length nth].
        repeat split; try reflexivity; try lia.
        intros _. unfold parseable. rewrite Hna, Hfl. reflexivity.
    + exists [], 0. cbn [firstn forallb map length nth].
      repeat split; try reflexivity; try lia.
      intros _. unfold parseable. rewrite Hna. reflexivity.
Qed.

Lemma scan_times_no_column (df : DataFrame) (time_minutes : list float) :
  ~ time_col < ncols df ->
  extract_time_minutes df = Ok time_minutes ->
  time_column df = [].
Proof.
  intros Hc. unfold extract_time_minutes, time_column, range.
  destruct (nrows df - data_start_row) as [| k] eqn:Hk.
  - reflexivity.
  - cbn [seq scan_times]. unfold iloc.
    destruct (time_col <? ncols df) eqn:Hlt.
    + apply Nat.ltb_lt in Hlt. contradiction.
    + rewrite andb_false_r. cbn [bind]. discriminate.
Qed.

(** C4: the extracted time list is the longest prefix of the time column
    (column 1, from row 9 on) whose cells are all non-empty and parseable
    as floats.  A frame that has a time column always yields a time list;
    and whenever a time list is extracted, it consists of the [n] first
    cells of the column, accepted and parsed in order, where either the
    column ends after them or its next cell is empty or not a number,
    whatever follows that cell. *)
Theorem time_minutes_longest_prefix (df : DataFrame) :
  (time_col < ncols df ->
   exists time_minutes, extract_time_minutes df = Ok time_minutes)
  /\
  (forall time_minutes : list float,
      extract_time_minutes df = Ok time_minutes ->
      exists n : nat,
        n <= length (time_column df)
        /\ length time_minutes = n
        /\ forallb parseable (firstn n (time_column df)) = true
        /\ map py_float (firstn n (time_column df)) = map Some time_minutes
        /\ (n < length (time_column df) ->
            parseable (nth n (time_column df) CEmpty) = false)).
Proof.
  assert (Hin : forall r, In r (range data_start_row (nrows df)) -> r < nrows df).
  { intros r Hr. unfold range in Hr. apply in_seq in Hr. lia. }
  split.
  - intros Hc.
    destruct (scan_times_prefix df Hc _ Hin) as (ts & n & Hscan & _).
    exists ts. exact Hscan.
  - intros time_minutes Hex.
    destruct (Nat.lt_ge_cases time_col (ncols df)) as [Hc | Hc].
    + destruct (scan_times_prefix df Hc _ Hin)
        as (ts & n & Hscan & Hn & Hall & Hmap & Hstop).
      unfold extract_time_minutes in Hex. rewrite Hscan in Hex.
      injection Hex as <-. exists n. fold (time_column df) in *.
      repeat split; auto.
      apply (f_equal (@length _)) in Hmap.
      rewrite !length_map, length_firstn in Hmap. lia.
    + assert (Hnil : time_column df = []).
      { apply scan_times_no_column with time_minutes; [lia | exact Hex]. }
      assert (Hts : time_minutes = []).
      { unfold extract_time_minutes in Hex. unfold time_column in Hnil.
        destruct (range data_start_row (nrows df)); [| discriminate Hnil].
        simpl in Hex. injection Hex as <-. reflexivity. }
      exists 0. rewrite Hnil, Hts. simpl. repeat split; auto; lia.
Qed.

(** *** Skipped cells and accepted wells *)

Lemma keep_length_le (f : nat -> option float) (l : list nat) :
  length (flat_map (fun i => keep (f i)) l) <= length l.
Proof.
  induction l as [| a l IH]; simpl.
  - lia.
  - rewrite length_app. destruct (f a); simpl; lia.
Qed.

(** Nothing was skipped exactly when as many values were kept as there
    are rows. *)
Lemma keep_length_all (f : nat -> option float) (l : list nat) :
  length (flat_map (fun i => keep (f i)) l) = length l ->
  map f l = map Some (flat_map (fun i => keep (f i)) l).
Proof.
  induction l as [| a l IH]; simpl; intros H.
  - reflexivity.
  - rewrite length_app in H. pose proof (keep_length_le f l) as Hle.
    destruct (f a) as [x |]; simpl in *.
    + f_equal. apply IH. lia.
    + lia.
Qed.

Lemma keep_all_length (f : nat -> option float) (l : list nat) :
  (forall i, In i l -> f i <> None) ->
  length (flat_map (fun i => keep (f i)) l) = length l.
Proof.
  induction l as [| a l IH]; simpl; intros H.
  - reflexivity.
  - rewrite length_app, IH by (intros i Hi; apply H; right; exact Hi).
    destruct (f a) eqn:Hfa; simpl.
    + reflexivity.
    + exfalso. apply (H a); [left; reflexivity | exact Hfa].
Qed.

Lemma nth_error_combine (A B : Type) (l : list A) (l' : list B) (i : nat) (a : A) (b : B) :
  nth_error l i = Some a -> nth_error l' i = Some b ->
  nth_error (combine l l') i = Some (a, b).
Proof.
  revert l' i. induction l as [| x l IH]; intros [| y l'] [| i]; simpl;
    try discriminate.
  - intros [= ->] [= ->]. reflexivity.
  - apply IH.
Qed.

Lemma od_values_complete (df : DataFrame) (T well_idx : nat) :
  complete df T well_idx ->
  length (od_values df (data_col_start + well_idx) T) = T.
Proof.
  intros H. unfold od_values. rewrite keep_all_length.
  - apply length_seq.
  - intros i Hi. apply in_seq in Hi. apply H. lia.
Qed.

Lemma od_values_length_le (df : DataFrame) (col_idx T : nat) :
  length (od_values df col_idx T) <= T.
Proof.
  unfold od_values.
  pose proof (keep_length_le (od_cell df col_idx) (seq 0 T)) as H.
  rewrite length_seq in H. exact H.
Qed.

Lemma od_cell_Some (df : DataFrame) (col_idx i : nat) (v : float) :
  od_cell df col_idx i = Some v ->
  data_start_row + i < nrows df
  /\ notna (cell_at df (data_start_row + i) col_idx) = true
  /\ py_float (cell_at df (data_start_row + i) col_idx) = Some v.
Proof.
  unfold od_cell.
  destruct (data_start_row + i <? nrows df) eqn:Hr; cbn [andb].
  - destruct (notna (cell_at df (data_start_row + i) col_idx)).
    + intros H. apply Nat.ltb_lt in Hr. auto.
    + discriminate.
  - discriminate.
Qed.

Lemma well_rows_accepted (well_name : string) (time_minutes od_values : list float) :
  length od_values = length time_minutes ->
  well_rows well_name time_minutes od_values
  = map (make_row well_name) (combine time_minutes od_values).
Proof.
  intros H. unfold well_rows. rewrite H, Nat.eqb_refl. reflexivity.
Qed.

Lemma well_rows_rejected (well_name : string) (time_minutes od_values : list float) :
  length od_values <> length time_minutes ->
  well_rows well_name time_minutes od_values = [].
Proof.
  intros H. unfold well_rows. apply Nat.eqb_neq in H. rewrite H. reflexivity.
Qed.

Lemma well_rows_length (well_name : string) (time_minutes od_values : list float) :
  length od_values = length time_minutes ->
  length (well_rows well_name time_minutes od_values) = length time_minutes.
Proof.
  intros H. rewrite well_rows_accepted by exact H.
  rewrite length_map, length_combine. lia.
Qed.

(** *** The sort keeps every row *)

Lemma insert_row_perm (r : Row) (l : list Row) :
  Permutation (r :: l) (insert_row r l).
Proof.
  induction l as [| h t IH]; simpl.
  - apply Permutation_refl.
  - destruct (row_leb r h).
    + apply Permutation_refl.
    + apply perm_trans with (h :: r :: t).
      * apply perm_swap.
      * apply perm_skip. exact IH.
Qed.

Lemma sort_values_perm (l : list Row) : Permutation l (sort_values l).
Proof.
  induction l as [| r l IH]; simpl.
  - apply perm_nil.
  - apply perm_trans with (r :: sort_values l).
    + apply perm_skip. exact IH.
    + apply insert_row_perm.
Qed.

Lemma sort_values_length (l : list Row) : length (sort_values l) = length l.
Proof. symmetry. apply Permutation_length, sort_values_perm. Qed.

Lemma convert_rows_nonempty (df : DataFrame) (output_data : list Row) :
  extract_output_data df = Ok output_data ->
  output_data <> [] ->
  convert_rows df = Ok (sort_values output_data).
Proof.
  intros H Hne. unfold convert_rows. rewrite H. cbn [bind].
  destruct output_data; [contradiction | reflexivity].
Qed.

(** *** Wells and their contributions *)

Lemma nth_error_enumerate_from (names : list string) :
  forall (k i : nat) (name : string),
    nth_error names i = Some name ->
    nth_error (combine (seq k (length names)) names) i = Some (k + i, name).
Proof.
  induction names as [| x names IH]; intros k [| i] name; simpl;
    try discriminate.
  - intros [= ->]. rewrite Nat.add_0_r. reflexivity.
  - intros H. rewrite (IH (S k) i name H). f_equal. f_equal. lia.
Qed.

Lemma nth_error_enumerate (names : list string) (i : nat) (name : string) :
  nth_error names i = Some name ->
  nth_error (enumerate names) i = Some (i, name).
Proof. apply (nth_error_enumerate_from names 0). Qed.

Lemma in_enumerate_from (names : list string) :
  forall (k i : nat) (name : string),
    In (i, name) (combine (seq k (length names)) names) ->
    k <= i /\ nth_error names (i - k) = Some name.
Proof.
  induction names as [| x names IH]; intros k i name; simpl.
  - contradiction.
  - intros [[= <- <-] | H].
    + rewrite Nat.sub_diag. split; [lia | reflexivity].
    + apply IH in H. destruct H as [Hk H]. split; [lia |].
      replace (i - k) with (S (i - S k)) by lia. exact H.
Qed.

Lemma in_enumerate (names : list string) (i : nat) (name : string) :
  In (i, name) (enumerate names) -> nth_error names i = Some name.
Proof.
  intros H. apply in_enumerate_from in H. rewrite Nat.sub_0_r in H. apply H.
Qed.

Lemma flat_map_filter_nil (A B : Type) (f : A -> list B) (p : A -> bool) (l : list A) :
  (forall x, In x l -> p x = false -> f x = []) ->
  flat_map f l = flat_map f (filter p l).
Proof.
  induction l as [| a l IH]; simpl; intros H.
  - reflexivity.
  - rewrite IH by (intros x Hx; apply H; right; exact Hx).
    destruct (p a) eqn:Hp; simpl.
    + reflexivity.
    + rewrite (H a) by auto. reflexivity.
Qed.

Lemma flat_map_not_nil (A B : Type) (f : A -> list B) (l : list A) (x : A) :
  In x l -> f x <> [] -> flat_map f l <> [].
Proof.
  induction l as [| a l IH]; simpl.
  - contradiction.
  - intros [-> | Hin] Hx Happ; apply app_eq_nil in Happ; destruct Happ as [Ha Hl].
    + contradiction.
    + apply (IH Hin Hx Hl).
Qed.

Lemma contributions_length (df : DataFrame) (time_minutes : list float) :
  forall (names : list string) (k : nat),
    (forall j, j < length names -> complete df (length time_minutes) (k + j)) ->
    length (flat_map (contribution df time_minutes)
                     (combine (seq k (length names)) names))
    = length names * length time_minutes.
Proof.
  induction names as [| name names IH]; intros k H;
    cbn [length seq combine flat_map].
  - reflexivity.
  - rewrite length_app, (IH (S k)).
    + unfold contribution at 1. cbn [fst snd].
      rewrite well_rows_length.
      * simpl. lia.
      * apply od_values_complete.
        specialize (H 0). rewrite Nat.add_0_r in H. apply H. simpl. lia.
    + intros j Hj. replace (S k + j) with (k + S j) by lia.
      apply H. simpl. lia.
Qed.

(** C2: when the header yields W wells, the time column T timepoints, and
    every well has a parseable value in each of the T time rows, the loop
    emits exactly W * T rows; when that number is not zero the conversion
    succeeds and its sorted output has W * T rows as well. *)
Theorem complete_grid_row_count (df : DataFrame)
        (well_names : list string) (time_minutes : list float) :
  extract_well_names df = Ok well_names ->
  extract_time_minutes df = Ok time_minutes ->
  (forall well_idx, well_idx < length well_names ->
                    complete df (length time_minutes) well_idx) ->
  exists output_data : list Row,
    extract_output_data df = Ok output_data
    /\ length output_data = length well_names * length time_minutes
    /\ (0 < length well_names * length time_minutes ->
        exists output_df : list Row,
          convert_rows df = Ok output_df
          /\ length output_df = length well_names * length time_minutes).
Proof.
  intros Hw Ht Hall.
  exists (flat_map (contribution df time_minutes) (enumerate well_names)).
  assert (Hlen : length (flat_map (contribution df time_minutes)
                                  (enumerate well_names))
                 = length well_names * length time_minutes).
  { unfold enumerate. apply contributions_length. intros j Hj. apply Hall, Hj. }
  split; [apply extract_output_data_wells; assumption |].
  split; [exact Hlen |].
  intros Hpos.
  exists (sort_values (flat_map (contribution df time_minutes)
                                (enumerate well_names))).
  split.
  - apply convert_rows_nonempty.
    + apply extract_output_data_wells; assumption.
    + intros Hnil. rewrite Hnil in Hlen. simpl in Hlen. lia.
  - rewrite sort_values_length. exact Hlen.
Qed.

(** C3: a well whose column yields fewer than T parseable values over the
    T time rows contributes no row: the emitted rows are exactly those of
    the other wells.  If some well is complete, the conversion still
    succeeds with a non-empty output, and returns True once the file is
    written. *)
Theorem partial_well_excluded (df : DataFrame)
        (well_names : list string) (time_minutes : list float)
        (well_idx : nat) (well_name : string) :
  extract_well_names df = Ok well_names ->
  extract_time_minutes df = Ok time_minutes ->
  nth_error well_names well_idx = Some well_name ->
  length (od_values df (data_col_start + well_idx) (length time_minutes))
  < length time_minutes ->
  contribution df time_minutes (well_idx, well_name) = []
  /\ extract_output_data df
     = Ok (flat_map (contribution df time_minutes)
                    (filter (fun w => negb (fst w =? well_idx))
                            (enumerate well_names)))
  /\ (forall other : nat,
         other < length well_names ->
         complete df (length time_minutes) other ->
         exists output_df : list Row,
           convert_rows df = Ok output_df
           /\ output_df <> []
           /\ forall to_csv : list Row -> result unit,
               to_csv output_df = Ok tt ->
               convert_bacterial_growth_data (Ok df) to_csv = true).
Proof.
  intros Hw Ht Hnth Hlt.
  assert (Hnil : contribution df time_minutes (well_idx, well_name) = []).
  { unfold contribution. cbn [fst snd]. apply well_rows_rejected. lia. }
  assert (Hdata : extract_output_data df
                  = Ok (flat_map (contribution df time_minutes)
                                 (enumerate well_names)))
    by (apply extract_output_data_wells; assumption).
  split; [exact Hnil |]. split.
  - rewrite Hdata. f_equal. apply flat_map_filter_nil.
    intros [i name] Hin Hp. cbn [fst] in Hp.
    apply negb_false_iff, Nat.eqb_eq in Hp. subst i.
    apply in_enumerate in Hin. rewrite Hnth in Hin.
    injection Hin as <-. exact Hnil.
  - intros other Hother Hcomplete.
    destruct (nth_error well_names other) as [name |] eqn:Hname;
      [| apply nth_error_None in Hname; lia].
    assert (Hne : flat_map (contribution df time_minutes)
                           (enumerate well_names) <> []).
    { apply flat_map_not_nil with (other, name).
      - apply nth_error_In with other. apply nth_error_enumerate, Hname.
      - intros Hc. apply (f_equal (@length _)) in Hc.
        unfold contribution in Hc. cbn [fst snd] in Hc.
        rewrite well_rows_length in Hc
          by (apply od_values_complete, Hcomplete).
        simpl in Hc. lia. }
    exists (sort_values (flat_map (contribution df time_minutes)
                                  (enumerate well_names))).
    pose proof (convert_rows_nonempty df Hdata Hne) as Hconv.
    split; [exact Hconv |]. split.
    + intros Hs. apply Hne. apply length_zero_iff_nil.
      rewrite <- sort_values_length, Hs. reflexivity.
    + intros to_csv Hcsv. unfold convert_bacterial_growth_data, conversion_body.
      cbn [bind]. rewrite Hconv. cbn [bind]. rewrite Hcsv. reflexivity.
Qed.

(** C10: a well is accepted only if none of its cells over the time range
    was skipped: each of them lies in the frame, is not missing and is
    parsed by [float]; and the i-th row the well contributes pairs the i-th
    extracted timepoint with the value parsed from the cell at row
    [data_start_row + i] of the well's column. *)
Theorem accepted_well_aligned (df : DataFrame)
        (well_names : list string) (time_minutes : list float)
        (well_idx : nat) (well_name : string) :
  extract_well_names df = Ok well_names ->
  extract_time_minutes df = Ok time_minutes ->
  nth_error well_names well_idx = Some well_name ->
  length (od_values df (data_col_start + well_idx) (length time_minutes))
  = length time_minutes ->
  extract_output_data df
  = Ok (flat_map (contribution df time_minutes) (enumerate well_names))
  /\ nth_error (enumerate well_names) well_idx = Some (well_idx, well_name)
  /\ length (contribution df time_minutes (well_idx, well_name))
     = length time_minutes
  /\ forall (i : nat) (time_min : float),
      nth_error time_minutes i = Some time_min ->
      exists od_val : float,
        data_start_row + i < nrows df
        /\ notna (cell_at df (data_start_row + i) (data_col_start + well_idx))
           = true
        /\ py_float (cell_at df (data_start_row + i) (data_col_start + well_idx))
           = Some od_val
        /\ nth_error (contribution df time_minutes (well_idx, well_name)) i
           = Some (make_row well_name (time_min, od_val)).
Proof.
  intros Hw Ht Hnth Hlen.
  split; [apply extract_output_data_wells; assumption |].
  split; [apply nth_error_enumerate, Hnth |].
  split; [unfold contribution; cbn [fst snd]; apply well_rows_length, Hlen |].
  intros i time_min Hi.
  assert (Hlt : i < length time_minutes)
    by (apply nth_error_Some; rewrite Hi; discriminate).
  assert (Hmap : map (od_cell df (data_col_start + well_idx))
                     (seq 0 (length time_minutes))
                 = map Some (od_values df (data_col_start + well_idx)
                                       (length time_minutes))).
  { apply keep_length_all. rewrite length_seq. exact Hlen. }
  apply (f_equal (fun l => nth_error l i)) in Hmap.
  rewrite !nth_error_map in Hmap.
  rewrite nth_error_seq in Hmap.
  destruct (Nat.ltb_spec i (length time_minutes)) as [_ | Hge]; [| lia].
  cbn [option_map Nat.add] in Hmap.
  destruct (nth_error (od_values df (data_col_start + well_idx)
                                 (length time_minutes)) i)
    as [od_val |] eqn:Hod; cbn [option_map] in Hmap; [| discriminate Hmap].
  injection Hmap as Hcell.
  apply od_cell_Some in Hcell. destruct Hcell as (Hrow & Hna & Hfl).
  exists od_val. repeat split; try assumption.
  unfold contribution. cbn [fst snd].
  rewrite well_rows_accepted by exact Hlen.
  rewrite nth_error_map.
  rewrite (nth_error_combine _ _ _ Hi Hod). reflexivity.
Qed.

(** *** Failure and success of the routine *)

Lemma no_timepoint_no_row (df : DataFrame) (w : nat * string) :
  contribution df [] w = [].
Proof. reflexivity. Qed.

Lemma flat_map_all_nil (A B : Type) (f : A -> list B) (l : list A) :
  (forall x, f x = []) -> flat_map f l = [].
Proof.
  intros H. induction l as [| a l IH]; simpl.
  - reflexivity.
  - rewrite H, IH. reflexivity.
Qed.

Lemma convert_rows_empty (df : DataFrame) :
  extract_output_data df = Ok [] -> convert_rows df = Raise ValueError.
Proof. intros H. unfold convert_rows. rewrite H. reflexivity. Qed.

Lemma convert_rows_Ok (df : DataFrame) (output_df : list Row) :
  convert_rows df = Ok output_df ->
  exists output_data : list Row,
    extract_output_data df = Ok output_data
    /\ output_data <> []
    /\ output_df = sort_values output_data.
Proof.
  unfold convert_rows. intros H. apply bind_Ok in H.
  destruct H as [output_data [Hdata H]]. exists output_data.
  destruct output_data as [| r l]; [discriminate H |].
  injection H as <-. repeat split; [exact Hdata | discriminate].
Qed.

(** C7: a frame from which no row is extracted, in particular one with no
    well name or no parseable timepoint, makes the conversion raise, and
    the routine returns False; there is no empty success: when the routine
    returns True, the header gave at least one well name, the time column
    at least one timepoint, and at least one row was extracted. *)
Theorem empty_output_is_failure (df : DataFrame)
        (to_csv : list Row -> result unit) :
  (extract_output_data df = Ok []
   \/ extract_well_names df = Ok []
   \/ extract_time_minutes df = Ok [] ->
   (exists e : exn, convert_rows df = Raise e)
   /\ convert_bacterial_growth_data (Ok df) to_csv = false)
  /\ (convert_bacterial_growth_data (Ok df) to_csv = true ->
      exists (well_names : list string) (time_minutes : list float)
             (output_data : list Row),
        extract_well_names df = Ok well_names /\ well_names <> []
        /\ extract_time_minutes df = Ok time_minutes /\ time_minutes <> []
        /\ extract_output_data df = Ok output_data /\ output_data <> []).
Proof.
  assert (Hempty :
            extract_output_data df = Ok []
            \/ extract_well_names df = Ok []
            \/ extract_time_minutes df = Ok [] ->
            exists e : exn, convert_rows df = Raise e).
  { intros [H | [H | H]].
    - exists ValueError. apply convert_rows_empty, H.
    - destruct (extract_time_minutes df) as [ts | e] eqn:Ht.
      + exists ValueError. apply convert_rows_empty.
        rewrite (extract_output_data_wells df H Ht). reflexivity.
      + exists e. unfold convert_rows, extract_output_data.
        rewrite H, Ht. reflexivity.
    - destruct (extract_well_names df) as [ws | e] eqn:Hw.
      + exists ValueError. apply convert_rows_empty.
        rewrite (extract_output_data_wells df Hw H).
        rewrite flat_map_all_nil by (apply no_timepoint_no_row). reflexivity.
      + exists e. unfold convert_rows, extract_output_data.
        rewrite Hw. reflexivity. }
  split.
  - intros H. destruct (Hempty H) as [e He].
    split; [exists e; exact He |].
    unfold convert_bacterial_growth_data, conversion_body.
    cbn [bind]. rewrite He. reflexivity.
  - unfold convert_bacterial_growth_data, conversion_body. cbn [bind].
    destruct (convert_rows df) as [output_df | e] eqn:Hconv; cbn [bind];
      [| discriminate].
    intros _.
    destruct (convert_rows_Ok df Hconv) as (output_data & Hdata & Hne & _).
    pose proof Hdata as Hparts. unfold extract_output_data in Hparts.
    apply bind_Ok in Hparts. destruct Hparts as [well_names [Hw Hparts]].
    apply bind_Ok in Hparts. destruct Hparts as [time_minutes [Ht _]].
    exists well_names, time_minutes, output_data.
    repeat split; try assumption.
    + intros ->. destruct (Hempty (or_intror (or_introl Hw))) as [e He].
      congruence.
    + intros ->. destruct (Hempty (or_intror (or_intror Ht))) as [e He].
      congruence.
Qed.

(** C8: the routine returns a Boolean whatever happens in the body of its
    [try]: it returns False as soon as reading the spreadsheet, converting
    it or writing the CSV file raises, and True exactly when the spreadsheet
    was read, rows were extracted, and the sorted rows were written. *)
Theorem convert_catches_every_exception (read_excel : result DataFrame)
        (to_csv : list Row -> result unit) :
  (convert_bacterial_growth_data read_excel to_csv = true <->
   exists (df : DataFrame) (output_data : list Row),
     read_excel = Ok df
     /\ extract_output_data df = Ok output_data
     /\ output_data <> []
     /\ to_csv (sort_values output_data) = Ok tt)
  /\ (convert_bacterial_growth_data read_excel to_csv = false <->
      exists e : exn, conversion_body read_excel to_csv = Raise e)
  /\ (forall e : exn,
         read_excel = Raise e ->
         convert_bacterial_growth_data read_excel to_csv = false)
  /\ (forall (df : DataFrame) (e : exn),
         read_excel = Ok df -> convert_rows df = Raise e ->
         convert_bacterial_growth_data read_excel to_csv = false)
  /\ (forall (df : DataFrame) (output_df : list Row) (e : exn),
         read_excel = Ok df -> convert_rows df = Ok output_df ->
         to_csv output_df = Raise e ->
         convert_bacterial_growth_data read_excel to_csv = false).
Proof.
  unfold convert_bacterial_growth_data, conversion_body.
  repeat split.
  - destruct read_excel as [df | e]; cbn [bind]; [| discriminate].
    destruct (convert_rows df) as [output_df | e] eqn:Hconv; cbn [bind];
      [| discriminate].
    destruct (to_csv output_df) as [[] | e] eqn:Hcsv; cbn [bind];
      [| discriminate].
    intros _. apply convert_rows_Ok in Hconv.
    destruct Hconv as (output_data & Hdata & Hne & ->).
    exists df, output_data. auto.
  - intros (df & output_data & -> & Hdata & Hne & Hcsv). cbn [bind].
    rewrite (convert_rows_nonempty df Hdata Hne). cbn [bind].
    rewrite Hcsv. reflexivity.
  - destruct (df <- read_excel;; output_df <- convert_rows df;;
              _ <- to_csv output_df;; Ok output_df) as [rows | e].
    + discriminate.
    + intros _. exists e. reflexivity.
  - intros [e ->]. reflexivity.
  - intros e ->. reflexivity.
  - intros df e -> H. cbn [bind]. rewrite H. reflexivity.
  - intros df output_df e -> H Hcsv. cbn [bind]. rewrite H. cbn [bind].
    rewrite Hcsv. reflexivity.
Qed.

(** *** The order of the sort *)

Lemma SFcompare_antisym (x y : spec_float) :
  SFcompare y x = option_map CompOpp (SFcompare x y).
Proof.
  destruct x as [sx | sx | | sx mx ex], y as [sy | sy | | sy my ey];
    try destruct sx; try destruct sy; try reflexivity.
  - simpl. rewrite (Z.compare_antisym ey ex).
    destruct (ey ?= ex)%Z; simpl; try reflexivity.
    change (PosDef.Pos.compare_cont Eq my mx) with (my ?= mx)%positive.
    change (PosDef.Pos.compare_cont Eq mx my) with (mx ?= my)%positive.
    rewrite (Pos.compare_antisym mx my). reflexivity.
  - simpl. rewrite (Z.compare_antisym ey ex).
    destruct (ey ?= ex)%Z; simpl; try reflexivity.
    change (PosDef.Pos.compare_cont Eq my mx) with (my ?= mx)%positive.
    change (PosDef.Pos.compare_cont Eq mx my) with (mx ?= my)%positive.
    rewrite (Pos.compare_antisym mx my). reflexivity.
Qed.

Lemma SFleb_finite_pos (m1 m2 : positive) (e1 e2 : Z) :
  SFleb (S754_finite false m1 e1) (S754_finite false m2 e2) = true
  <-> (e1 < e2 \/ (e1 = e2 /\ (m1 <= m2)%positive))%Z.
Proof.
  unfold SFleb. simpl.
  change (PosDef.Pos.compare_cont Eq m1 m2) with (m1 ?= m2)%positive.
  destruct (Z.compare_spec e1 e2).
  - subst. destruct (Pos.compare_spec m1 m2); split; intros;
      try reflexivity; try discriminate; try lia.
  - split; intros; auto.
  - split; intros; try discriminate. lia.
Qed.

Lemma SFleb_finite_neg (m1 m2 : positive) (e1 e2 : Z) :
  SFleb (S754_finite true m1 e1) (S754_finite true m2 e2) = true
  <-> (e2 < e1 \/ (e1 = e2 /\ (m2 <= m1)%positive))%Z.
Proof.
  unfold SFleb. simpl.
  change (PosDef.Pos.compare_cont Eq m1 m2) with (m1 ?= m2)%positive.
  destruct (Z.compare_spec e1 e2).
  - subst. destruct (Pos.compare_spec m1 m2); simpl; split; intros;
      try reflexivity; try discriminate; try lia.
  - split; intros; try discriminate. lia.
  - split; intros; auto.
Qed.

Lemma SFleb_trans (x y z : spec_float) :
  SFleb x y = true -> SFleb y z = true -> SFleb x z = true.
Proof.
  destruct x as [sx | sx | | sx mx ex], y as [sy | sy | | sy my ey],
           z as [sz | sz | | sz mz ez];
    try destruct sx; try destruct sy; try destruct sz;
    try reflexivity; try discriminate;
    try (intros _ H; exact H); try (intros H _; exact H).
  - rewrite !SFleb_finite_neg. lia.
  - rewrite !SFleb_finite_pos. lia.
Qed.

Lemma SFleb_total (x y : spec_float) :
  x <> S754_nan -> y <> S754_nan -> SFleb x y = false -> SFleb y x = true.
Proof.
  intros Hx Hy. unfold SFleb. rewrite (SFcompare_antisym x y).
  destruct x, y; try contradiction;
    destruct (SFcompare _ _) as [[| |] |] eqn:E; simpl;
    try discriminate; try reflexivity.
Qed.

Lemma SFeqb_leb (x y : spec_float) :
  SFeqb x y = (SFleb x y && SFleb y x)%bool.
Proof.
  unfold SFeqb, SFleb. rewrite (SFcompare_antisym x y).
  destruct (SFcompare x y) as [[| |] |]; reflexivity.
Qed.

Lemma is_nan_spec (x : float) :
  is_nan x = true <-> Prim2SF x = S754_nan.
Proof.
  unfold is_nan. rewrite FloatAxioms.eqb_spec. unfold SFeqb.
  destruct (Prim2SF x) as [s | s | | s m e]; simpl.
  - split; discriminate.
  - destruct s; split; discriminate.
  - split; reflexivity.
  - rewrite Z.compare_refl.
    change (PosDef.Pos.compare_cont Eq m m) with (m ?= m)%positive.
    rewrite Pos.compare_refl. destruct s; split; discriminate.
Qed.

Lemma is_nan_false (x : float) :
  is_nan x = false <-> Prim2SF x <> S754_nan.
Proof.
  rewrite <- is_nan_spec. destruct (is_nan x); split; intros H.
  - discriminate H.
  - exfalso. apply H. reflexivity.
  - discriminate.
  - reflexivity.
Qed.

Lemma time_leb_total (a b : float) :
  time_leb a b = false -> time_leb b a = true.
Proof.
  unfold time_leb.
  destruct (is_nan b) eqn:Hb; [discriminate |].
  destruct (is_nan a) eqn:Ha; [reflexivity |].
  rewrite !FloatAxioms.leb_spec. apply SFleb_total; apply is_nan_false; assumption.
Qed.

Lemma time_leb_trans (a b c : float) :
  time_leb a b = true -> time_leb b c = true -> time_leb a c = true.
Proof.
  unfold time_leb.
  destruct (is_nan c) eqn:Hc; [reflexivity |].
  destruct (is_nan b) eqn:Hb; [discriminate |].
  destruct (is_nan a) eqn:Ha; [discriminate |].
  rewrite !FloatAxioms.leb_spec. apply SFleb_trans.
Qed.

Lemma time_eqb_leb (a b : float) :
  time_eqb a b = (time_leb a b && time_leb b a)%bool.
Proof.
  unfold time_eqb, time_leb. rewrite FloatAxioms.eqb_spec, !FloatAxioms.leb_spec, SFeqb_leb.
  destruct (is_nan a) eqn:Ha, (is_nan b) eqn:Hb; cbn [andb orb];
    try reflexivity.
  - apply is_nan_spec in Ha. rewrite Ha. reflexivity.
  - apply is_nan_spec in Hb. rewrite Hb.
    destruct (Prim2SF a) as [[] | [] | | [] ? ?]; reflexivity.
Qed.

Lemma string_compare_refl (s : string) : String.compare s s = Eq.
Proof.
  induction s as [| c s IH]; simpl.
  - reflexivity.
  - unfold Ascii.compare. rewrite N.compare_refl. exact IH.
Qed.

Lemma string_compare_lt_trans (a b c : string) :
  String.compare a b = Lt -> String.compare b c = Lt ->
  String.compare a c = Lt.
Proof.
  revert b c. induction a as [| x a IH]; intros [| y b] [| z c]; simpl;
    try discriminate; try reflexivity.
  unfold Ascii.compare.
  destruct (N.compare_spec (N_of_ascii x) (N_of_ascii y)) as [Exy | Lxy | Gxy];
    try discriminate;
    destruct (N.compare_spec (N_of_ascii y) (N_of_ascii z)) as [Eyz | Lyz | Gyz];
    try discriminate; intros Hab Hbc.
  - rewrite Exy, Eyz, N.compare_refl. apply (IH b c Hab Hbc).
  - rewrite Exy. apply N.compare_lt_iff in Lyz. rewrite Lyz. reflexivity.
  - rewrite <- Eyz. apply N.compare_lt_iff in Lxy. rewrite Lxy. reflexivity.
  - assert (H : (N_of_ascii x < N_of_ascii z)%N) by lia.
    apply N.compare_lt_iff in H. rewrite H. reflexivity.
Qed.

(** [row_leb] is the order by well name, then by time with NaN last. *)
Lemma row_leb_spec (r1 r2 : Row) :
  row_leb r1 r2 = true <->
  String.compare (Well r1) (Well r2) = Lt
  \/ (Well r1 = Well r2 /\ time_leb (Time_s r1) (Time_s r2) = true).
Proof.
  unfold row_leb.
  destruct (String.compare (Well r1) (Well r2)) eqn:E.
  - apply String.compare_eq_iff in E. split.
    + intros H. right. auto.
    + intros [H | [_ H]]; [discriminate H | exact H].
  - split; auto.
  - split; [discriminate |].
    intros [H | [H _]]; [discriminate H |].
    rewrite H, string_compare_refl in E. discriminate E.
Qed.

Lemma row_leb_total (r1 r2 : Row) :
  row_leb r1 r2 = false -> row_leb r2 r1 = true.
Proof.
  unfold row_leb. rewrite (String.compare_antisym (Well r2) (Well r1)).
  destruct (String.compare (Well r1) (Well r2)); simpl.
  - apply time_leb_total.
  - discriminate.
  - reflexivity.
Qed.

Lemma row_leb_trans (r1 r2 r3 : Row) :
  row_leb r1 r2 = true -> row_leb r2 r3 = true -> row_leb r1 r3 = true.
Proof.
  rewrite !row_leb_spec.
  intros [H12 | [E12 T12]] [H23 | [E23 T23]].
  - left. apply string_compare_lt_trans with (Well r2); assumption.
  - left. rewrite <- E23. exact H12.
  - left. rewrite E12. exact H23.
  - right. split; [congruence |].
    apply time_leb_trans with (Time_s r2); assumption.
Qed.

Lemma same_key_leb (r1 r2 : Row) :
  same_key r1 r2 = (row_leb r1 r2 && row_leb r2 r1)%bool.
Proof.
  unfold same_key, row_leb.
  rewrite (String.compare_antisym (Well r2) (Well r1)), time_eqb_leb.
  destruct (String.eqb_spec (Well r1) (Well r2)) as [E | N].
  - rewrite E, string_compare_refl. reflexivity.
  - destruct (String.compare (Well r1) (Well r2)) eqn:C; simpl;
      try reflexivity.
    apply String.compare_eq_iff in C. congruence.
Qed.

(** *** The insertion sort is a stable sort *)

Lemma insert_row_sorted (r : Row) (l : list Row) :
  StronglySorted row_le l -> StronglySorted row_le (insert_row r l).
Proof.
  induction l as [| h t IH]; simpl; intros Hs.
  - constructor; constructor.
  - apply StronglySorted_inv in Hs. destruct Hs as [Hst Hall].
    destruct (row_leb r h) eqn:Hrh.
    + constructor.
      * constructor; assumption.
      * constructor; [exact Hrh |].
        eapply Forall_impl; [| exact Hall].
        intros y Hy. apply row_leb_trans with h; assumption.
    + constructor.
      * apply IH, Hst.
      * apply Permutation_Forall with (r :: t).
        -- apply insert_row_perm.
        -- constructor; [apply row_leb_total, Hrh | exact Hall].
Qed.

Lemma sort_values_sorted (l : list Row) :
  StronglySorted row_le (sort_values l).
Proof.
  induction l as [| r l IH]; simpl.
  - constructor.
  - apply insert_row_sorted, IH.
Qed.

Lemma insert_row_filter (p : Row -> bool) (r : Row) (l : list Row) :
  (forall y, In y l -> p r = true -> p y = true -> row_leb r y = true) ->
  filter p (insert_row r l) = filter p (r :: l).
Proof.
  induction l as [| h t IH]; intros H.
  - reflexivity.
  - cbn [insert_row]. destruct (row_leb r h) eqn:Hrh; [reflexivity |].
    cbn [filter]. rewrite IH by (intros y Hy; apply H; right; exact Hy).
    cbn [filter].
    destruct (p r) eqn:Hr, (p h) eqn:Hh; try reflexivity.
    rewrite (H h) in Hrh by (simpl; auto). discriminate Hrh.
Qed.

Lemma sort_values_stable (key : Row) (l : list Row) :
  filter (same_key key) (sort_values l) = filter (same_key key) l.
Proof.
  induction l as [| r l IH]; cbn [sort_values fold_right].
  - reflexivity.
  - fold (sort_values l). rewrite insert_row_filter.
    + cbn [filter]. rewrite IH. reflexivity.
    + intros y _ Hr Hy. rewrite same_key_leb in Hr, Hy.
      apply andb_prop in Hr. apply andb_prop in Hy.
      apply row_leb_trans with key; [apply Hr | apply Hy].
Qed.

(** *** When two rows share a key *)

Lemma ForallOrdPairs_app (A : Type) (R : A -> A -> Prop) (l1 l2 : list A) :
  ForallOrdPairs R l1 -> ForallOrdPairs R l2 ->
  (forall a b, In a l1 -> In b l2 -> R a b) ->
  ForallOrdPairs R (l1 ++ l2).
Proof.
  intros H1 H2 H12. induction H1 as [| a l Ha Hl IH]; simpl.
  - exact H2.
  - constructor.
    + apply Forall_app. split; [exact Ha |].
      apply Forall_forall. intros b Hb. apply H12; [left; reflexivity | exact Hb].
    + apply IH. intros x y Hx Hy. apply H12; [right; exact Hx | exact Hy].
Qed.

Lemma ForallOrdPairs_map (A B : Type) (R' : A -> A -> Prop) (R : B -> B -> Prop)
      (f : A -> B) (l : list A) :
  (forall x y, R' x y -> R (f x) (f y)) ->
  ForallOrdPairs R' l -> ForallOrdPairs R (map f l).
Proof.
  intros Hf H. induction H as [| a l Ha Hl IH]; simpl; constructor.
  - apply Forall_map. eapply Forall_impl; [| exact Ha]. intros y. apply Hf.
  - exact IH.
Qed.

Lemma ForallOrdPairs_combine (A B : Type) (R : A -> A -> Prop)
      (l : list A) (l' : list B) :
  ForallOrdPairs R l ->
  ForallOrdPairs (fun p q => R (fst p) (fst q)) (combine l l').
Proof.
  intros H. revert l'. induction H as [| a l Ha Hl IH]; intros [| b l']; simpl;
    try constructor.
  - apply Forall_forall. intros [x y] Hin. cbn [fst].
    apply in_combine_l in Hin. rewrite Forall_forall in Ha. apply Ha, Hin.
  - apply IH.
Qed.

Lemma contribution_well (df : DataFrame) (time_minutes : list float)
      (w : nat * string) (r : Row) :
  In r (contribution df time_minutes w) -> Well r = snd w.
Proof.
  unfold contribution, well_rows.
  destruct (_ =? _); [| contradiction].
  intros H. apply in_map_iff in H. destruct H as [[t v] [<- _]]. reflexivity.
Qed.

Lemma contribution_distinct (df : DataFrame) (time_minutes : list float)
      (w : nat * string) :
  distinct_times time_minutes ->
  distinct_keys (contribution df time_minutes w).
Proof.
  intros H. unfold contribution, well_rows.
  destruct (_ =? _); [| constructor].
  apply ForallOrdPairs_map
    with (R' := fun p q : float * float =>
                  time_eqb (round (fst p * 60) 1) (round (fst q * 60) 1) = false).
  - intros [t1 v1] [t2 v2] Ht. cbn [fst] in Ht.
    unfold same_key. cbn [make_row Well Time_s]. rewrite Ht.
    apply andb_false_r.
  - apply (@ForallOrdPairs_combine _ _
             (fun t1 t2 => time_eqb (round (t1 * 60) 1) (round (t2 * 60) 1)
                           = false)).
    exact H.
Qed.

Lemma contributions_distinct (df : DataFrame) (time_minutes : list float)
      (wells : list (nat * string)) :
  NoDup (map snd wells) ->
  distinct_times time_minutes ->
  distinct_keys (flat_map (contribution df time_minutes) wells).
Proof.
  intros Hnd Ht. induction wells as [| w wells IH]; simpl.
  - constructor.
  - cbn [map] in Hnd. apply NoDup_cons_iff in Hnd. destruct Hnd as [Hw Hnd].
    apply ForallOrdPairs_app.
    + apply contribution_distinct, Ht.
    + apply IH, Hnd.
    + intros a b Ha Hb. apply contribution_well in Ha.
      apply in_flat_map in Hb. destruct Hb as [w' [Hw' Hb]].
      apply contribution_well in Hb.
      unfold same_key. rewrite Ha, Hb.
      destruct (String.eqb_spec (snd w) (snd w')) as [E | N];
        [| reflexivity].
      exfalso. apply Hw. rewrite E. apply in_map, Hw'.
Qed.

Lemma enumerate_names (names : list string) :
  map snd (enumerate names) = names.
Proof.
  unfold enumerate. generalize 0.
  induction names as [| x names IH]; intros k; simpl.
  - reflexivity.
  - f_equal. apply IH.
Qed.

Lemma filter_none (A : Type) (p : A -> bool) (l : list A) :
  (forall x, In x l -> p x = false) -> filter p l = [].
Proof.
  induction l as [| a l IH]; simpl; intros H.
  - reflexivity.
  - rewrite (H a) by (left; reflexivity). apply IH.
    intros x Hx. apply H. right. exact Hx.
Qed.

Lemma distinct_keys_filter (l : list Row) (key : Row) :
  distinct_keys l -> length (filter (same_key key) l) <= 1.
Proof.
  intros H. induction H as [| a l Ha Hl IH]; simpl.
  - lia.
  - destruct (same_key key a) eqn:Hka; [| exact IH].
    assert (Hnil : filter (same_key key) l = []).
    { apply filter_none. intros b Hb.
      destruct (same_key key b) eqn:Hkb; [| reflexivity].
      rewrite Forall_forall in Ha. specialize (Ha b Hb).
      rewrite same_key_leb in Hka, Hkb, Ha.
      apply andb_prop in Hka. apply andb_prop in Hkb.
      rewrite (@row_leb_trans a key b) in Ha by tauto.
      rewrite (@row_leb_trans b key a) in Ha by tauto.
      discriminate Ha. }
    rewrite Hnil. simpl. lia.
Qed.

(** C6 (amended): the output of a successful conversion is the stable
    sort of the emitted rows by well name (in the order of strings), then
    by Time_s (numerically, NaN last): it holds the same rows, every row
    is below all the rows after it, so the sequence is non-decreasing in
    the key (Well, Time_s), and the rows that share a key come in the order
    in which they were emitted.  Rows share a key only when two header
    cells give the same well name or two timepoints give the same Time_s:
    with pairwise distinct well names and pairwise distinct Time_s every
    key occurs at most once. *)
Theorem output_stably_sorted (df : DataFrame) (output_df : list Row) :
  convert_rows df = Ok output_df ->
  exists output_data : list Row,
    extract_output_data df = Ok output_data
    /\ output_df = sort_values output_data
    /\ Permutation output_data output_df
    /\ StronglySorted row_le output_df
    /\ Sorted row_le output_df
    /\ (forall key : Row,
           filter (same_key key) output_df = filter (same_key key) output_data)
    /\ (forall (well_names : list string) (time_minutes : list float),
           extract_well_names df = Ok well_names ->
           extract_time_minutes df = Ok time_minutes ->
           NoDup well_names ->
           distinct_times time_minutes ->
           forall key : Row, length (filter (same_key key) output_df) <= 1).
Proof.
  intros H. apply convert_rows_Ok in H.
  destruct H as (output_data & Hdata & _ & ->).
  exists output_data. repeat split.
  - exact Hdata.
  - apply sort_values_perm.
  - apply sort_values_sorted.
  - apply StronglySorted_Sorted, sort_values_sorted.
  - intros key. apply sort_values_stable.
  - intros well_names time_minutes Hw Ht Hnd Hdt key.
    rewrite sort_values_stable.
    rewrite (extract_output_data_wells df Hw Ht) in Hdata.
    injection Hdata as <-.
    apply distinct_keys_filter, contributions_distinct; [| exact Hdt].
    rewrite enumerate_names. exact Hnd.
Qed.

(** *** Rounding error of the binary64 operations

    The operations on primitive floats are specified by the functions of
    [SpecFloat]; the lemmas below bound the distance between what these
    functions return and the exact result. *)

Unset Implicit Arguments.
Local Open Scope Z_scope.

(** The number of binary digits of a mantissa. *)
Lemma digits2_pos_bounds (p : positive) :
  2 ^ (Zpos (digits2_pos p) - 1) <= Zpos p < 2 ^ Zpos (digits2_pos p).
Proof.
  induction p as [p IH | p IH |]; cbn [digits2_pos].
  - rewrite Pos2Z.inj_succ, (Pos2Z.inj_xI p).
    replace (Z.succ (Zpos (digits2_pos p)) - 1)
      with (Z.succ (Zpos (digits2_pos p) - 1)) by lia.
    rewrite !Z.pow_succ_r by lia.
    generalize dependent (2 ^ (Zpos (digits2_pos p) - 1)).
    generalize (2 ^ Zpos (digits2_pos p)). intros; lia.
  - rewrite Pos2Z.inj_succ, (Pos2Z.inj_xO p).
    replace (Z.succ (Zpos (digits2_pos p)) - 1)
      with (Z.succ (Zpos (digits2_pos p) - 1)) by lia.
    rewrite !Z.pow_succ_r by lia.
    generalize dependent (2 ^ (Zpos (digits2_pos p) - 1)).
    generalize (2 ^ Zpos (digits2_pos p)). intros; lia.
  - simpl. lia.
Qed.

Lemma Zdigits2_bounds (m : Z) :
  0 < m -> 2 ^ (Zdigits2 m - 1) <= m < 2 ^ Zdigits2 m.
Proof.
  destruct m as [| p | p]; try lia. intros _. apply digits2_pos_bounds.
Qed.

Lemma Zdigits2_pos (m : Z) : 0 < m -> 0 < Zdigits2 m.
Proof. destruct m; simpl; lia. Qed.

Lemma Zdigits2_gt (m j : Z) : 0 < m -> 2 ^ j <= m -> j < Zdigits2 m.
Proof.
  intros Hm Hj. pose proof (Zdigits2_bounds m Hm) as [_ Hub].
  pose proof (Zdigits2_pos m Hm).
  destruct (Z.lt_ge_cases j (Zdigits2 m)) as [| Hge]; [assumption |].
  assert (2 ^ Zdigits2 m <= 2 ^ j) by (apply Z.pow_le_mono_r; lia). lia.
Qed.

Lemma Zdigits2_le (m j : Z) : 0 < m -> 0 <= j -> m < 2 ^ j -> Zdigits2 m <= j.
Proof.
  intros Hm Hj Hlt. pose proof (Zdigits2_bounds m Hm) as [Hlb _].
  pose proof (Zdigits2_pos m Hm).
  destruct (Z.le_gt_cases (Zdigits2 m) j) as [| Hgt]; [assumption |].
  assert (2 ^ j <= 2 ^ (Zdigits2 m - 1)) by (apply Z.pow_le_mono_r; lia). lia.
Qed.

Lemma div_pow2_lt (m d n : Z) :
  0 <= n <= d -> m < 2 ^ d -> m / 2 ^ n < 2 ^ (d - n).
Proof.
  intros Hn Hm. apply Z.div_lt_upper_bound; [apply Z.pow_pos_nonneg; lia |].
  rewrite <- Z.pow_add_r by lia. replace (n + (d - n)) with d by lia. exact Hm.
Qed.

Lemma div_pow2_ge (m d n : Z) :
  0 <= n <= d -> 2 ^ d <= m -> 2 ^ (d - n) <= m / 2 ^ n.
Proof.
  intros Hn Hm. apply Z.div_le_lower_bound; [apply Z.pow_pos_nonneg; lia |].
  rewrite <- Z.pow_add_r by lia. replace (n + (d - n)) with d by lia. exact Hm.
Qed.

(** Shifting a mantissa right by [n] bits divides it by [2^n]. *)
Lemma shr_1_m (r : shr_record) : 0 <= shr_m r -> shr_m (shr_1 r) = shr_m r / 2.
Proof.
  destruct r as [m rb sb]. cbn [shr_m]. intros Hm.
  destruct m as [| [p | p |] | p]; cbn [shr_1 shr_m]; try lia.
  - reflexivity.
  - rewrite Pos2Z.inj_xI. apply Z.div_unique with 1; lia.
  - rewrite Pos2Z.inj_xO. apply Z.div_unique with 0; lia.
  - reflexivity.
Qed.

Lemma pow2_xI (p : positive) :
  2 ^ Zpos p~1 = 2 * (2 ^ Zpos p * 2 ^ Zpos p).
Proof.
  rewrite (Pos2Z.inj_xI p).
  replace (2 * Zpos p + 1) with (Z.succ (Zpos p + Zpos p)) by lia.
  rewrite Z.pow_succ_r, Z.pow_add_r by lia. reflexivity.
Qed.

Lemma pow2_xO (p : positive) :
  2 ^ Zpos p~0 = 2 ^ Zpos p * 2 ^ Zpos p.
Proof.
  rewrite (Pos2Z.inj_xO p).
  replace (2 * Zpos p) with (Zpos p + Zpos p) by lia.
  rewrite Z.pow_add_r by lia. reflexivity.
Qed.

Lemma iter_pos_shr_m (p : positive) :
  forall r : shr_record,
    0 <= shr_m r ->
    shr_m (SpecFloat.iter_pos shr_1 p r) = shr_m r / 2 ^ Zpos p.
Proof.
  induction p as [p IH | p IH |]; intros r Hr; cbn [SpecFloat.iter_pos].
  - assert (H1 : 0 <= shr_m (shr_1 r))
      by (rewrite shr_1_m by exact Hr; apply Z.div_pos; lia).
    assert (H2 : 0 <= shr_m (SpecFloat.iter_pos shr_1 p (shr_1 r))).
    { rewrite IH by exact H1. apply Z.div_pos; [lia |].
      apply Z.pow_pos_nonneg; lia. }
    rewrite IH by exact H2. rewrite IH by exact H1. rewrite shr_1_m by exact Hr.
    rewrite !Z.div_div by (try lia; apply Z.pow_pos_nonneg; lia).
    rewrite pow2_xI. reflexivity.
  - assert (H2 : 0 <= shr_m (SpecFloat.iter_pos shr_1 p r)).
    { rewrite IH by exact Hr. apply Z.div_pos; [lia |].
      apply Z.pow_pos_nonneg; lia. }
    rewrite IH by exact H2. rewrite IH by exact Hr.
    rewrite !Z.div_div by (try lia; apply Z.pow_pos_nonneg; lia).
    rewrite pow2_xO. reflexivity.
  - rewrite shr_1_m by exact Hr. reflexivity.
Qed.

Lemma shr_record_of_loc_m (m : Z) (l : location) :
  shr_m (shr_record_of_loc m l) = m.
Proof. destruct l as [| []]; reflexivity. Qed.

Lemma shr_fexp_spec (m e : Z) (l : location) :
  0 <= m ->
  let n := Z.max 0 (fexp prec emax (Zdigits2 m + e) - e) in
  shr_m (fst (shr_fexp prec emax m e l)) = m / 2 ^ n
  /\ snd (shr_fexp prec emax m e l) = e + n.
Proof.
  intros Hm n. unfold shr_fexp, shr. subst n.
  destruct (fexp prec emax (Zdigits2 m + e) - e) as [| p | p]; cbn [fst snd].
  - rewrite shr_record_of_loc_m. simpl. rewrite Z.div_1_r. lia.
  - rewrite iter_pos_shr_m by (rewrite shr_record_of_loc_m; exact Hm).
    rewrite shr_record_of_loc_m.
    replace (Z.max 0 (Zpos p)) with (Zpos p) by lia. split; reflexivity.
  - rewrite shr_record_of_loc_m. simpl. rewrite Z.div_1_r. lia.
Qed.

Lemma round_nearest_even_bounds (m : Z) (l : location) :
  round_nearest_even m l = m \/ round_nearest_even m l = m + 1.
Proof.
  destruct l as [| []]; simpl; auto. destruct (Z.even m); auto.
Qed.

Lemma fexp_eq (e : Z) : fexp prec emax e = Z.max (e - 53) (-1074).
Proof. reflexivity. Qed.

(** After the first shift of [binary_round_aux] the mantissa has at most 53
    bits, and exactly 53 unless the exponent is the least one. *)
Lemma first_shift_mantissa (mx ex : Z) :
  0 <= mx -> ex <= fexp prec emax (Zdigits2 mx + ex) ->
  let e1 := fexp prec emax (Zdigits2 mx + ex) in
  let m1 := mx / 2 ^ (e1 - ex) in
  0 <= m1 < 2 ^ 53 /\ (e1 = -1074 \/ (-1074 < e1 /\ 2 ^ 52 <= m1)).
Proof.
  intros Hmx H1 e1 m1. subst e1 m1. rewrite fexp_eq in *.
  assert (Hpow : forall k, 0 <= k -> 0 < 2 ^ k)
    by (intros; apply Z.pow_pos_nonneg; lia).
  destruct (Z.eq_dec mx 0) as [-> | Hne].
  - simpl Zdigits2 in *. rewrite Z.div_0_l by (specialize (Hpow (Z.max (0 + ex - 53) (-1074) - ex)); lia).
    split; [split; [lia | apply Hpow; lia] |]. left. lia.
  - assert (Hpos : 0 < mx) by lia.
    pose proof (Zdigits2_bounds mx Hpos) as [Hlb Hub].
    pose proof (Zdigits2_pos mx Hpos) as Hd.
    set (d := Zdigits2 mx) in *.
    set (n := Z.max (d + ex - 53) (-1074) - ex) in *.
    assert (Hn : 0 <= n) by lia.
    split; [split |].
    + apply Z.div_pos; [lia | apply Hpow; lia].
    + destruct (Z.le_gt_cases n d) as [Hnd | Hnd].
      * apply Z.lt_le_trans with (2 ^ (d - n)).
        -- apply div_pow2_lt; [lia | exact Hub].
        -- apply Z.pow_le_mono_r; lia.
      * rewrite Z.div_small; [apply Hpow; lia |].
        split; [lia |]. apply Z.lt_le_trans with (2 ^ d); [exact Hub |].
        apply Z.pow_le_mono_r; lia.
    + destruct (Z.eq_dec (Z.max (d + ex - 53) (-1074)) (-1074)) as [E | E];
        [left; exact E | right].
      split; [lia |].
      replace 52 with (d - 1 - n) by lia.
      apply div_pow2_ge; [lia | exact Hlb].
Qed.

Lemma Zdigits2_pow53 : Zdigits2 (2 ^ 53) = 54.
Proof. reflexivity. Qed.

(** What [binary_round_aux] returns: the truncated mantissa [m1] or its
    successor at the exponent [e1] chosen for the input, as a zero or in
    canonical form. *)
Lemma binary_round_aux_spec (sx : bool) (mx ex : Z) (lx : location) :
  0 <= mx -> ex <= fexp prec emax (Zdigits2 mx + ex) ->
  let e1 := fexp prec emax (Zdigits2 mx + ex) in
  let m1 := mx / 2 ^ (e1 - ex) in
  exists m2 : Z,
    (m2 = m1 \/ m2 = m1 + 1)
    /\ ((m2 = 0 /\ binary_round_aux prec emax sx mx ex lx = S754_zero sx)
        \/ (exists (m : positive) (e : Z),
               e1 <= e <= e1 + 1 /\ Zpos m * 2 ^ (e - e1) = m2
               /\ canonical_mantissa prec emax m e = true
               /\ binary_round_aux prec emax sx mx ex lx
                  = if e <=? emax - prec then S754_finite sx m e
                    else S754_infinity sx)).
Proof.
  intros Hmx H1 e1 m1.
  destruct (first_shift_mantissa mx ex Hmx H1) as [Hm1 Hnorm].
  fold e1 in Hm1, Hnorm. fold m1 in Hm1, Hnorm.
  assert (He1 : -1074 <= e1) by (subst e1; rewrite fexp_eq; lia).
  unfold binary_round_aux.
  pose proof (shr_fexp_spec mx ex lx Hmx) as [Hs1 He'].
  destruct (shr_fexp prec emax mx ex lx) as [mrs' e']. cbn [fst snd] in Hs1, He'.
  fold e1 in Hs1, He'.
  replace (Z.max 0 (e1 - ex)) with (e1 - ex) in Hs1, He' by lia.
  fold m1 in Hs1. replace (ex + (e1 - ex)) with e1 in He' by lia. subst e'.
  rewrite Hs1.
  set (m2 := round_nearest_even m1 (loc_of_shr_record mrs')).
  assert (Hm2 : m2 = m1 \/ m2 = m1 + 1) by apply round_nearest_even_bounds.
  assert (Hm2pos : 0 <= m2) by lia.
  exists m2. split; [exact Hm2 |].
  pose proof (shr_fexp_spec m2 e1 loc_Exact Hm2pos) as [Hs2 He''].
  destruct (shr_fexp prec emax m2 e1 loc_Exact) as [mrs'' e''].
  cbn [fst snd] in Hs2, He''. rewrite fexp_eq in Hs2, He''.
  destruct (Z.eq_dec m2 0) as [Hz | Hnz].
  - left. split; [exact Hz |]. rewrite Hs2, Hz. rewrite Z.div_0_l; [reflexivity |].
    apply Z.pow_nonzero; lia.
  - right. assert (Hpos : 0 < m2) by lia.
    pose proof (Zdigits2_pos m2 Hpos) as Hd2.
    destruct (Z.lt_ge_cases m2 (2 ^ 53)) as [Hlt | Hge].
    + assert (Hdle : Zdigits2 m2 <= 53) by (apply Zdigits2_le; lia).
      assert (Hdge : e1 = -1074 \/ Zdigits2 m2 = 53).
      { destruct Hnorm as [E | [_ Hlb]]; [left; exact E | right].
        assert (52 < Zdigits2 m2) by (apply Zdigits2_gt; lia). lia. }
      replace (Z.max 0 (Z.max (Zdigits2 m2 + e1 - 53) (-1074) - e1)) with 0
        in Hs2, He'' by lia.
      rewrite Z.pow_0_r, Z.div_1_r in Hs2. rewrite Z.add_0_r in He''. subst e''.
      rewrite Hs2. destruct m2 as [| m | m]; try lia.
      exists m, e1. split; [lia |]. split; [rewrite Z.sub_diag; simpl; lia |].
      split; [| reflexivity].
      unfold canonical_mantissa. rewrite fexp_eq. apply Z.eqb_eq.
      change (Zpos (digits2_pos m)) with (Zdigits2 (Zpos m)). lia.
    + assert (E : m2 = 2 ^ 53) by lia.
      rewrite E in Hs2, He''. rewrite Zdigits2_pow53 in Hs2, He''.
      replace (Z.max 0 (Z.max (54 + e1 - 53) (-1074) - e1)) with 1
        in Hs2, He'' by lia.
      change (2 ^ 53 / 2 ^ 1) with (Zpos 4503599627370496) in Hs2.
      rewrite Hs2. subst e''.
      exists 4503599627370496%positive, (e1 + 1). split; [lia |].
      split; [rewrite E; replace (e1 + 1 - e1) with 1 by lia; reflexivity |].
      split; [| reflexivity].
      unfold canonical_mantissa. rewrite fexp_eq. apply Z.eqb_eq.
      change (Zpos (digits2_pos 4503599627370496)) with 53. lia.
Qed.

(** The quotient computed by [SFdiv_core_binary] is the integer part of
    the exact quotient at its exponent, and has enough bits. *)
Lemma SFdiv_core_spec (m1 m2 : positive) (e1 e2 : Z) :
  exists (q e' : Z) (l : location),
    SFdiv_core_binary prec emax (Zpos m1) e1 (Zpos m2) e2 = (q, e', l)
    /\ 0 <= q
    /\ e' <= e1 - e2
    /\ Zpos m2 * q <= Zpos m1 * 2 ^ (e1 - e2 - e') < Zpos m2 * (q + 1)
    /\ e' <= fexp prec emax (Zdigits2 q + e').
Proof.
  unfold SFdiv_core_binary.
  set (d1 := Zdigits2 (Zpos m1)). set (d2 := Zdigits2 (Zpos m2)).
  set (e' := Z.min (fexp prec emax (d1 + e1 - (d2 + e2))) (e1 - e2)).
  set (s := e1 - e2 - e').
  assert (Hs : 0 <= s) by (subst s e'; lia).
  set (m' := match s with
             | Z0 => Zpos m1
             | Zpos _ => Z.shiftl (Zpos m1) s
             | Zneg _ => 0
             end).
  assert (Hm' : m' = Zpos m1 * 2 ^ s).
  { subst m'. clearbody s. destruct s as [| p | p]; try lia.
    apply Z.shiftl_mul_pow2. lia. }
  assert (Hpow : 0 < 2 ^ s) by (apply Z.pow_pos_nonneg; lia).
  assert (Hm'pos : 0 < m') by (rewrite Hm'; lia).
  pose proof (Z.div_eucl_eq m' (Zpos m2) ltac:(lia)) as Heq.
  pose proof (Z.mod_pos_bound m' (Zpos m2) ltac:(lia)) as Hmod.
  unfold Z.modulo in Hmod.
  destruct (Z.div_eucl m' (Zpos m2)) as [q r].
  exists q, e', (new_location (Zpos m2) r).
  split; [reflexivity |].
  assert (Hq : 0 <= q) by nia.
  split; [exact Hq |]. split; [subst e'; lia |].
  split; [fold s; rewrite <- Hm'; lia |].
  rewrite fexp_eq.
  destruct (Z.le_gt_cases e' (-1074)) as [Hle | Hgt]; [lia |].
  pose proof (Zdigits2_bounds (Zpos m1) ltac:(lia)) as [Hl1 Hu1].
  pose proof (Zdigits2_bounds (Zpos m2) ltac:(lia)) as [Hl2 Hu2].
  pose proof (Zdigits2_pos (Zpos m1) ltac:(lia)) as Hd1.
  pose proof (Zdigits2_pos (Zpos m2) ltac:(lia)) as Hd2.
  fold d1 in Hl1, Hu1, Hd1. fold d2 in Hl2, Hu2, Hd2.
  assert (He' : e' <= d1 + e1 - (d2 + e2) - 53).
  { subst e'. rewrite fexp_eq in *. lia. }
  set (j := d1 - 1 + s - d2).
  assert (Hj : 52 <= j) by (subst j s; lia).
  assert (Hqj : 2 ^ j <= q).
  { assert (H1 : 2 ^ (d1 - 1 + s) <= m').
    { rewrite Hm', Z.pow_add_r by lia. nia. }
    assert (H2 : 2 ^ (d1 - 1 + s) = 2 ^ j * 2 ^ d2).
    { rewrite <- Z.pow_add_r by lia. f_equal. subst j. lia. }
    assert (H3 : 0 < 2 ^ j) by (apply Z.pow_pos_nonneg; lia).
    assert (H4 : 2 ^ j * Zpos m2 < Zpos m2 * (q + 1)) by nia.
    nia. }
  assert (Hqpos : 0 < q).
  { assert (0 < 2 ^ j) by (apply Z.pow_pos_nonneg; lia). lia. }
  pose proof (Zdigits2_gt q j Hqpos Hqj) as Hdq.
  subst j s. lia.
Qed.

(** Rounding to the nearest integer moves by at most one half. *)
Lemma round_half_even_spec (n d : Z) :
  0 <= n -> 0 < d ->
  0 <= round_half_even n d
  /\ - d <= 2 * (round_half_even n d * d - n) <= d.
Proof.
  intros Hn Hd. unfold round_half_even.
  pose proof (Z.div_mod n d ltac:(lia)) as Hdm.
  pose proof (Z.mod_pos_bound n d Hd) as Hmod.
  assert (Hq : 0 <= n / d) by (apply Z.div_pos; lia).
  destruct (Z.compare_spec (2 * (n mod d)) d) as [E | L | G].
  - destruct (Z.even (n / d)); split; nia.
  - split; nia.
  - split; nia.
Qed.

Local Open Scope Q_scope.

(** Powers of two as rationals. *)
Lemma pow2_pos (e : Z) : 0 < 2 ^ e.
Proof. apply Qpower_0_lt. reflexivity. Qed.

Lemma pow2_add (a b : Z) : 2 ^ (a + b) == 2 ^ a * 2 ^ b.
Proof. apply Qpower_plus. discriminate. Qed.

Lemma pow2_inject (n : Z) : (0 <= n)%Z -> inject_Z (2 ^ n) == 2 ^ n.
Proof. intros H. apply (Zpower_Qpower 2 n H). Qed.

Lemma pow2_le (a b : Z) : (a <= b)%Z -> 2 ^ a <= 2 ^ b.
Proof. intros H. apply Qpower_le_compat_l; [exact H | discriminate]. Qed.

Lemma scaled_inject (m e1 ex : Z) :
  (ex <= e1)%Z ->
  inject_Z m * 2 ^ e1 == inject_Z (m * 2 ^ (e1 - ex)) * 2 ^ ex.
Proof.
  intros H. rewrite inject_Z_mult, pow2_inject by lia.
  replace e1 with ((e1 - ex) + ex)%Z at 1 by lia.
  rewrite pow2_add. ring.
Qed.

Lemma floor_scaled (mx ex e1 : Z) :
  (ex <= e1)%Z ->
  inject_Z (mx / 2 ^ (e1 - ex)) * 2 ^ e1 <= inject_Z mx * 2 ^ ex
  /\ inject_Z (mx + 1) * 2 ^ ex <= inject_Z (mx / 2 ^ (e1 - ex) + 1) * 2 ^ e1.
Proof.
  intros H.
  assert (Hp : (0 < 2 ^ (e1 - ex))%Z) by (apply Z.pow_pos_nonneg; lia).
  pose proof (pow2_pos ex) as Hex.
  rewrite !(scaled_inject _ e1 ex H). split.
  - apply Qmult_le_compat_r; [| apply Qlt_le_weak, Hex].
    rewrite <- Zle_Qle. rewrite Z.mul_comm. apply Z.mul_div_le. exact Hp.
  - apply Qmult_le_compat_r; [| apply Qlt_le_weak, Hex].
    rewrite <- Zle_Qle.
    assert (Hlt : (mx < 2 ^ (e1 - ex) * Z.succ (mx / 2 ^ (e1 - ex)))%Z)
      by (apply Z.mul_succ_div_gt; exact Hp).
    lia.
Qed.

(** [binary_round_aux] returns a valid float within one unit in the last
    place of any exact value [X] located by its input. *)
Lemma round_aux_error (sx : bool) (mx ex : Z) (lx : location) (X : Q) :
  (0 <= mx)%Z ->
  (ex <= fexp prec emax (Zdigits2 mx + ex))%Z ->
  (fexp prec emax (Zdigits2 mx + ex) <= 970)%Z ->
  inject_Z mx * 2 ^ ex <= X < inject_Z (mx + 1) * 2 ^ ex ->
  let r := binary_round_aux prec emax sx mx ex lx in
  valid_binary r = true
  /\ (r = S754_zero sx \/ exists m e, r = S754_finite sx m e)
  /\ Qabs (SFmag r - X) <= 2 ^ fexp prec emax (Zdigits2 mx + ex).
Proof.
  intros Hmx H1 Hov [HX1 HX2] r.
  destruct (binary_round_aux_spec sx mx ex lx Hmx H1) as [m2 [Hm2 Hres]].
  fold r in Hres.
  set (e1 := fexp prec emax (Zdigits2 mx + ex)) in *.
  destruct (floor_scaled mx ex e1 H1) as [Hf1 Hf2].
  set (m1 := (mx / 2 ^ (e1 - ex))%Z) in *.
  pose proof (pow2_pos e1) as He1.
  assert (Herr : Qabs (inject_Z m2 * 2 ^ e1 - X) <= 2 ^ e1).
  { apply Qabs_Qle_condition.
    rewrite (inject_Z_plus m1) in Hf2. change (inject_Z 1) with 1 in Hf2.
    destruct Hm2 as [-> | ->]; rewrite ?inject_Z_plus;
      change (inject_Z 1) with 1; split; lra. }
  destruct Hres as [[Hz ->] | (m & e & He & Hm & Hcan & ->)].
  - split; [reflexivity |]. split; [left; reflexivity |].
    rewrite Hz in Herr. cbn [SFmag]. 
    setoid_replace (0 - X) with (inject_Z 0 * 2 ^ e1 - X) by (unfold inject_Z; ring).
    exact Herr.
  - assert (Hle : (e <=? emax - prec)%Z = true)
      by (apply Z.leb_le; unfold emax, prec; lia).
    rewrite Hle. split.
    + cbn [valid_binary]. unfold bounded. rewrite Hcan, Hle. reflexivity.
    + split; [right; exists m, e; reflexivity |].
      cbn [SFmag].
      setoid_replace (inject_Z (Zpos m) * 2 ^ e) with (inject_Z m2 * 2 ^ e1);
        [exact Herr |].
      rewrite <- Hm. symmetry. rewrite (scaled_inject (Zpos m) e e1) by lia.
      rewrite !inject_Z_mult, !pow2_inject by lia.
      rewrite <- Qmult_assoc, <- pow2_add.
      replace (e - e1 + e1)%Z with e by lia. 
      rewrite (scaled_inject (Zpos m) e e1) by lia.
      rewrite inject_Z_mult, pow2_inject by lia.
      rewrite <- Qmult_assoc, <- pow2_add.
      replace (e - e1 + e1)%Z with e by lia. reflexivity.
Qed.

Lemma digits_exp_le (m e B : Z) :
  (0 < m)%Z -> inject_Z m * 2 ^ e < 2 ^ B -> (Zdigits2 m + e <= B)%Z.
Proof.
  intros Hm Hlt.
  pose proof (Zdigits2_bounds m Hm) as [Hlb _].
  pose proof (Zdigits2_pos m Hm) as Hd.
  assert (H : 2 ^ (Zdigits2 m - 1 + e) < 2 ^ B).
  { apply Qle_lt_trans with (inject_Z m * 2 ^ e); [| exact Hlt].
    rewrite pow2_add, <- pow2_inject by lia.
    apply Qmult_le_compat_r; [| apply Qlt_le_weak, pow2_pos].
    rewrite <- Zle_Qle. exact Hlb. }
  apply Qpower_lt_compat_l_inv in H; [lia | reflexivity].
Qed.

Lemma fexp_bound (d B : Z) :
  (d <= B)%Z -> (fexp prec emax d <= Z.max (B - 53) (-1074))%Z.
Proof. rewrite fexp_eq. lia. Qed.

(** Division: the result is within [2^(B - 53)] of the exact quotient [X]
    when [X < 2^B]. *)
Lemma SFdiv_error (sx sy : bool) (mx my : positive) (ex ey : Z) (X : Q) (B : Z) :
  X * (inject_Z (Zpos my) * 2 ^ ey) == inject_Z (Zpos mx) * 2 ^ ex ->
  X < 2 ^ B -> (B <= 1023)%Z ->
  let r := SFdiv prec emax (S754_finite sx mx ex) (S754_finite sy my ey) in
  valid_binary r = true
  /\ (r = S754_zero (xorb sx sy) \/ exists m e, r = S754_finite (xorb sx sy) m e)
  /\ Qabs (SFmag r - X) <= 2 ^ Z.max (B - 53) (-1074).
Proof.
  intros HX HB HB' r. subst r. cbn [SFdiv].
  destruct (SFdiv_core_spec mx my ex ey)
    as (q & e' & l & -> & Hq & He' & [Hq1 Hq2] & H1).
  set (s := (ex - ey - e')%Z) in *.
  assert (Hs : (0 <= s)%Z) by (subst s; lia).
  pose proof (pow2_pos e') as Pe'. pose proof (pow2_pos ey) as Pey.
  assert (Pmy : 0 < inject_Z (Zpos my)) by (rewrite <- (Zlt_Qlt 0); lia).
  assert (HXY : X * inject_Z (Zpos my)
                == inject_Z (Zpos mx * 2 ^ s) * 2 ^ e').
  { apply (Qmult_inj_r _ _ (2 ^ ey)); [lra |].
    rewrite <- Qmult_assoc, HX.
    rewrite inject_Z_mult, pow2_inject by exact Hs.
    rewrite <- !Qmult_assoc, <- !pow2_add.
    replace (s + (e' + ey))%Z with ex by (subst s; lia). reflexivity. }
  assert (HXq : inject_Z q * 2 ^ e' <= X < inject_Z (q + 1) * 2 ^ e').
  { split.
    - apply (Qmult_le_r _ _ (inject_Z (Zpos my))); [exact Pmy |].
      rewrite HXY.
      setoid_replace (inject_Z q * 2 ^ e' * inject_Z (Zpos my))
        with (inject_Z (Zpos my * q) * 2 ^ e')
        by (rewrite inject_Z_mult; ring).
      apply Qmult_le_compat_r; [| lra]. rewrite <- Zle_Qle. exact Hq1.
    - apply (Qmult_lt_r _ _ (inject_Z (Zpos my))); [exact Pmy |].
      rewrite HXY.
      setoid_replace (inject_Z (q + 1) * 2 ^ e' * inject_Z (Zpos my))
        with (inject_Z (Zpos my * (q + 1)) * 2 ^ e')
        by (rewrite (inject_Z_mult (Zpos my)); ring).
      apply Qmult_lt_compat_r; [exact Pe' |]. rewrite <- Zlt_Qlt. exact Hq2. }
  assert (Hd : (fexp prec emax (Zdigits2 q + e') <= Z.max (B - 53) (-1074))%Z).
  { destruct (Z.eq_dec q 0) as [-> | Hne].
    - rewrite fexp_eq in *. simpl Zdigits2 in *. lia.
    - apply fexp_bound. apply digits_exp_le; [lia |].
      apply Qle_lt_trans with X; [apply HXq | exact HB]. }
  destruct (round_aux_error (xorb sx sy) q e' l X Hq H1 ltac:(lia) HXq)
    as (Hv & Hshape & Herr).
  split; [exact Hv |]. split; [exact Hshape |].
  apply Qle_trans with (2 ^ fexp prec emax (Zdigits2 q + e')); [exact Herr |].
  apply pow2_le, Hd.
Qed.

(** Multiplication by a normal number: the result is within [2^(B - 53)]
    of the exact product when the product is below [2^B]. *)
Lemma SFmul_error (sx sy : bool) (mx my : positive) (ex ey : Z) (B : Z) :
  Zdigits2 (Zpos my) = 53%Z ->
  (inject_Z (Zpos mx) * 2 ^ ex) * (inject_Z (Zpos my) * 2 ^ ey) < 2 ^ B ->
  (B <= 1023)%Z ->
  let r := SFmul prec emax (S754_finite sx mx ex) (S754_finite sy my ey) in
  valid_binary r = true
  /\ (r = S754_zero (xorb sx sy) \/ exists m e, r = S754_finite (xorb sx sy) m e)
  /\ Qabs (SFmag r - (inject_Z (Zpos mx) * 2 ^ ex) * (inject_Z (Zpos my) * 2 ^ ey))
     <= 2 ^ Z.max (B - 53) (-1074).
Proof.
  intros Hdy HB HB' r. subst r. cbn [SFmul].
  set (X := (inject_Z (Zpos mx) * 2 ^ ex) * (inject_Z (Zpos my) * 2 ^ ey)) in *.
  assert (HX : X == inject_Z (Zpos (mx * my)) * 2 ^ (ex + ey)).
  { subst X. rewrite Pos2Z.inj_mul, inject_Z_mult, pow2_add. ring. }
  assert (Hpos : (0 < Zpos (mx * my))%Z) by lia.
  assert (HXm : inject_Z (Zpos (mx * my)) * 2 ^ (ex + ey) <= X
                < inject_Z (Zpos (mx * my) + 1) * 2 ^ (ex + ey)).
  { rewrite HX. split; [lra |]. rewrite inject_Z_plus. change (inject_Z 1) with 1.
    pose proof (pow2_pos (ex + ey)). lra. }
  assert (H1 : (ex + ey <= fexp prec emax (Zdigits2 (Zpos (mx * my)) + (ex + ey)))%Z).
  { pose proof (Zdigits2_bounds (Zpos mx) ltac:(lia)) as [Hlx _].
    pose proof (Zdigits2_bounds (Zpos my) ltac:(lia)) as [Hly _].
    pose proof (Zdigits2_pos (Zpos mx) ltac:(lia)) as Hdx.
    rewrite Hdy in Hly.
    assert (Hprod : (2 ^ (Zdigits2 (Zpos mx) - 1 + 52) <= Zpos (mx * my))%Z).
    { rewrite Z.pow_add_r by lia. rewrite Pos2Z.inj_mul.
      change (53 - 1)%Z with 52%Z in Hly.
      assert (0 < 2 ^ (Zdigits2 (Zpos mx) - 1))%Z by (apply Z.pow_pos_nonneg; lia).
      nia. }
    apply Zdigits2_gt in Hprod; [| lia]. rewrite fexp_eq. lia. }
  assert (Hd : (fexp prec emax (Zdigits2 (Zpos (mx * my)) + (ex + ey))
                <= Z.max (B - 53) (-1074))%Z).
  { apply fexp_bound, digits_exp_le; [lia |]. rewrite <- HX. exact HB. }
  destruct (round_aux_error (xorb sx sy) (Zpos (mx * my)) (ex + ey) loc_Exact X
                            ltac:(lia) H1 ltac:(lia) HXm)
    as (Hv & Hshape & Herr).
  split; [exact Hv |]. split; [exact Hshape |].
  eapply Qle_trans; [exact Herr |]. apply pow2_le, Hd.
Qed.

(** [decimal_digits] is within one half of the exact value scaled by
    [10^ndigits]. *)
Lemma decimal_digits_spec (m : positive) (e ndigits : Z) :
  (0 <= ndigits)%Z ->
  (0 <= decimal_digits m e ndigits)%Z
  /\ Qabs (inject_Z (decimal_digits m e ndigits)
           - inject_Z (Zpos m) * 2 ^ e * inject_Z (10 ^ ndigits)) <= 1 # 2.
Proof.
  intros Hn. unfold decimal_digits.
  assert (H10 : (0 < 10 ^ ndigits)%Z) by (apply Z.pow_pos_nonneg; lia).
  destruct (Z.leb_spec 0 e) as [He | He].
  - split; [assert (0 < 2 ^ e)%Z by (apply Z.pow_pos_nonneg; lia); nia |].
    rewrite !inject_Z_mult, pow2_inject by exact He.
    setoid_replace (inject_Z (Zpos m) * 2 ^ e * inject_Z (10 ^ ndigits)
                    - inject_Z (Zpos m) * 2 ^ e * inject_Z (10 ^ ndigits))
      with 0 by ring.
    discriminate.
  - assert (Hd : (0 < 2 ^ (- e))%Z) by (apply Z.pow_pos_nonneg; lia).
    destruct (round_half_even_spec (Zpos m * 10 ^ ndigits) (2 ^ (- e))
                                   ltac:(nia) Hd) as [Hk Hb].
    set (k := round_half_even (Zpos m * 10 ^ ndigits) (2 ^ (- e))) in *.
    split; [exact Hk |].
    pose proof (pow2_pos e) as Pe. pose proof (pow2_pos (- e)) as Pne.
    assert (Hinv : 2 ^ e * 2 ^ (- e) == 1).
    { rewrite <- pow2_add. replace (e + - e)%Z with 0%Z by lia. reflexivity. }
    assert (Hb1 : - 2 ^ (- e)
                  <= 2 * (inject_Z k * 2 ^ (- e)
                          - inject_Z (Zpos m) * inject_Z (10 ^ ndigits))
                  <= 2 ^ (- e)).
    { clearbody k.
      assert (Hb1 : (2 * (Zpos m * 10 ^ ndigits)
                     <= 2 * (k * 2 ^ (- e)) + 2 ^ (- e))%Z).
      { revert Hb. generalize (2 ^ (- e))%Z (10 ^ ndigits)%Z. intros; lia. }
      assert (Hb2 : (2 * (k * 2 ^ (- e))
                     <= 2 ^ (- e) + 2 * (Zpos m * 10 ^ ndigits))%Z).
      { revert Hb. generalize (2 ^ (- e))%Z (10 ^ ndigits)%Z. intros; lia. }
      rewrite Zle_Qle in Hb1, Hb2.
      rewrite !inject_Z_plus, !inject_Z_mult in Hb1, Hb2.
      rewrite !pow2_inject in Hb1, Hb2 by lia.
      change (inject_Z 2) with 2 in Hb1, Hb2.
      split; lra. }
    apply Qabs_Qle_condition.
    set (a := inject_Z k) in *. set (b := inject_Z (Zpos m)) in *.
    set (c := inject_Z (10 ^ ndigits)) in *.
    set (p := 2 ^ e) in *. set (pn := 2 ^ (- e)) in *.
    assert (E1 : a - b * p * c == (a * pn - b * c) * p).
    { transitivity (a * (p * pn) - b * c * p); [rewrite Hinv; ring | ring]. }
    rewrite E1.
    assert (E2 : (1 # 2) == (pn * p) * (1 # 2)).
    { rewrite (Qmult_comm pn p), Hinv. ring. }
    split.
    + apply Qle_trans with ((- pn * (1 # 2)) * p).
      * rewrite E2 at 1. apply Qle_lteq. right. ring.
      * apply Qmult_le_compat_r; lra.
    + apply Qle_trans with ((pn * (1 # 2)) * p).
      * apply Qmult_le_compat_r; lra.
      * rewrite E2 at 2. apply Qle_lteq. right. ring.
Qed.

Lemma Qabs_scale (a b c d : Q) :
  0 < d -> Qabs (a - b * d) <= c -> Qabs (a / d - b) <= c / d.
Proof.
  intros Hd H.
  assert (E : a / d - b == (a - b * d) / d) by (field; lra).
  rewrite E. unfold Qdiv. rewrite Qabs_Qmult.
  rewrite (Qabs_pos (/ d)) by (apply Qlt_le_weak, Qinv_lt_0_compat, Hd).
  apply Qmult_le_compat_r; [exact H |].
  apply Qlt_le_weak, Qinv_lt_0_compat, Hd.
Qed.

(** [round(x, nd)] moves a finite [x] by at most half a unit of the last
    decimal place kept, plus the rounding of the final division. *)
Lemma SFround_error (s : bool) (m : positive) (e nd B : Z) :
  (0 <= nd)%Z ->
  inject_Z (Zpos m) * 2 ^ e + (1 # 2) / inject_Z (10 ^ nd) < 2 ^ B ->
  (B <= 1023)%Z ->
  approx s (SFround (S754_finite s m e) nd) (inject_Z (Zpos m) * 2 ^ e)
         ((1 # 2) / inject_Z (10 ^ nd) + 2 ^ Z.max (B - 53) (-1074)).
Proof.
  intros Hnd HB HB'.
  set (M := inject_Z (Zpos m) * 2 ^ e) in *.
  set (D := inject_Z (10 ^ nd)) in *.
  assert (H10 : (0 < 10 ^ nd)%Z) by (apply Z.pow_pos_nonneg; lia).
  assert (HD : 0 < D) by (subst D; rewrite <- (Zlt_Qlt 0); exact H10).
  assert (HM : 0 <= M).
  { subst M. apply Qmult_le_0_compat; [| apply Qlt_le_weak, pow2_pos].
    rewrite <- (Zle_Qle 0). lia. }
  pose proof (pow2_pos (Z.max (B - 53) (-1074))) as Hp.
  assert (Hhalf : 0 < (1 # 2) / D)
    by (apply Qlt_shift_div_l; [exact HD | lra]).
  destruct (decimal_digits_spec m e nd Hnd) as [Hk Hkerr].
  fold M D in Hkerr.
  apply Qabs_scale in Hkerr; [| exact HD].
  unfold approx, SFround.
  destruct (decimal_digits m e nd) as [| k | k] eqn:Ek; [| | lia].
  - split; [reflexivity |]. split; [left; reflexivity |].
    cbn [SFmag]. apply Qabs_Qle_condition in Hkerr.
    apply Qabs_Qle_condition.
    assert (Z0 : inject_Z 0 / D == 0) by (unfold Qdiv; ring).
    rewrite Z0 in Hkerr. split; lra.
  - set (X := inject_Z (Zpos k) / D) in *.
    assert (HX : X * (inject_Z (Zpos (Z.to_pos (10 ^ nd))) * 2 ^ 0)
                 == inject_Z (Zpos k) * 2 ^ 0).
    { rewrite Z2Pos.id by exact H10. fold D. subst X.
      change (2 ^ 0) with 1. field. lra. }
    assert (HXB : X < 2 ^ B).
    { apply Qabs_Qle_condition in Hkerr. lra. }
    destruct (SFdiv_error s false k (Z.to_pos (10 ^ nd)) 0 0 X B HX HXB HB')
      as (Hv & Hshape & Herr).
    rewrite xorb_false_r in Hshape.
    split; [exact Hv |]. split; [exact Hshape |].
    apply Qabs_Qle_condition in Hkerr. apply Qabs_Qle_condition in Herr.
    apply Qabs_Qle_condition. split; lra.
Qed.

(** The operations of the script on primitive floats. *)
Lemma Prim2SF_60 : Prim2SF 60 = S754_finite false 8444249301319680 (-47).
Proof. vm_compute. reflexivity. Qed.

Lemma Prim2SF_infinity : Prim2SF infinity = S754_infinity false.
Proof. vm_compute. reflexivity. Qed.

Lemma is_finite_shaped (t : float) :
  is_finite t = true -> exists s, shaped s (Prim2SF t).
Proof.
  unfold is_finite, is_nan, is_infinity.
  rewrite !FloatAxioms.eqb_spec, abs_spec, Prim2SF_infinity.
  destruct (Prim2SF t) as [s | s | | s m e] eqn:E.
  - intros _. exists s. left. reflexivity.
  - destruct s; simpl; discriminate.
  - simpl. discriminate.
  - intros _. exists s. right. exists m, e. reflexivity.
Qed.

Lemma SFmag_nonneg (x : spec_float) : 0 <= SFmag x.
Proof.
  destruct x as [s | s | | s m e]; cbn [SFmag]; try lra.
  apply Qmult_le_0_compat; [| apply Qlt_le_weak, pow2_pos].
  rewrite <- (Zle_Qle 0). lia.
Qed.

Lemma approx_zero (s : bool) (X err : Q) :
  0 <= X -> X <= err -> approx s (S754_zero s) X err.
Proof.
  intros H0 H. split; [reflexivity |]. split; [left; reflexivity |].
  cbn [SFmag]. apply Qabs_Qle_condition. split; lra.
Qed.

Lemma sixty_value : inject_Z (Zpos 8444249301319680) * 2 ^ (-47) == 60.
Proof. reflexivity. Qed.

(** [t * 60] and [t / 60] for a time of at most 2^40 minutes. *)
Lemma mul60_approx (t : float) (s : bool) :
  shaped s (Prim2SF t) -> SFmag (Prim2SF t) <= 2 ^ 40 ->
  approx s (Prim2SF (t * 60)) (SFmag (Prim2SF t) * 60) (1 # 128).
Proof.
  intros Hs HM. rewrite mul_spec, Prim2SF_60. unfold SF64mul.
  destruct Hs as [E | (m & e & E)]; rewrite E in *.
  - cbn [SFmul SFmag]. rewrite xorb_false_r. apply approx_zero; lra.
  - cbn [SFmag] in *.
    assert (E40 : 2 ^ 40 == 1099511627776) by reflexivity.
    assert (E46 : 2 ^ 46 == 70368744177664) by reflexivity.
    rewrite E40 in HM.
    assert (Hlt : inject_Z (Zpos m) * 2 ^ e
                  * (inject_Z (Zpos 8444249301319680) * 2 ^ (-47)) < 2 ^ 46)
      by (rewrite sixty_value, E46; lra).
    destruct (SFmul_error s false m 8444249301319680 e (-47) 46
                          eq_refl Hlt ltac:(lia)) as (Hv & Hsh & Herr).
    rewrite sixty_value in Herr. rewrite xorb_false_r in Hsh.
    split; [exact Hv |]. split; [exact Hsh | exact Herr].
Qed.

Lemma div60_approx (t : float) (s : bool) :
  shaped s (Prim2SF t) -> SFmag (Prim2SF t) <= 2 ^ 40 ->
  approx s (Prim2SF (t / 60)) (SFmag (Prim2SF t) / 60) (1 # 262144).
Proof.
  intros Hs HM. rewrite div_spec, Prim2SF_60. unfold SF64div.
  destruct Hs as [E | (m & e & E)]; rewrite E in *.
  - cbn [SFdiv SFmag]. rewrite xorb_false_r. apply approx_zero; [| discriminate].
    unfold Qdiv. rewrite Qmult_0_l. lra.
  - cbn [SFmag] in *.
    assert (E40 : 2 ^ 40 == 1099511627776) by reflexivity.
    assert (E35 : 2 ^ 35 == 34359738368) by reflexivity.
    rewrite E40 in HM.
    assert (HX : inject_Z (Zpos m) * 2 ^ e / 60
                 * (inject_Z (Zpos 8444249301319680) * 2 ^ (-47))
                 == inject_Z (Zpos m) * 2 ^ e)
      by (rewrite sixty_value; field).
    assert (Hlt : inject_Z (Zpos m) * 2 ^ e / 60 < 2 ^ 35).
    { rewrite E35. apply Qlt_shift_div_r; lra. }
    destruct (SFdiv_error s false m 8444249301319680 e (-47) _ 35
                          HX Hlt ltac:(lia)) as (Hv & Hsh & Herr).
    rewrite xorb_false_r in Hsh.
    split; [exact Hv |]. split; [exact Hsh | exact Herr].
Qed.

(** [round(a, nd)] on a primitive float. *)
Lemma round_approx (a : float) (s : bool) (nd B : Z) :
  (0 <= nd)%Z -> (B <= 1023)%Z ->
  shaped s (Prim2SF a) ->
  SFmag (Prim2SF a) + (1 # 2) / inject_Z (10 ^ nd) < 2 ^ B ->
  approx s (Prim2SF (round a nd)) (SFmag (Prim2SF a))
         ((1 # 2) / inject_Z (10 ^ nd) + 2 ^ Z.max (B - 53) (-1074)).
Proof.
  intros Hnd HB Hs Hlt. unfold round.
  assert (Happ : approx s (SFround (Prim2SF a) nd) (SFmag (Prim2SF a))
                        ((1 # 2) / inject_Z (10 ^ nd)
                         + 2 ^ Z.max (B - 53) (-1074))).
  { destruct Hs as [E | (m & e & E)]; rewrite E in *.
    - cbn [SFround SFmag]. apply approx_zero; [lra |].
      pose proof (pow2_pos (Z.max (B - 53) (-1074))).
      assert (0 < (1 # 2) / inject_Z (10 ^ nd)).
      { apply Qlt_shift_div_l; [| lra]. rewrite <- (Zlt_Qlt 0).
        apply Z.pow_pos_nonneg; lia. }
      lra.
    - apply SFround_error; assumption. }
  rewrite Prim2SF_SF2Prim by apply Happ. exact Happ.
Qed.

Lemma approx_signed (s : bool) (x : spec_float) (X err : Q) :
  approx s x X err ->
  SF2Q x == (if s then - SFmag x else SFmag x)
  /\ X - err <= SFmag x <= X + err.
Proof.
  intros (_ & Hs & Herr). split.
  - destruct Hs as [-> | (m & e & ->)]; unfold SF2Q; cbn [SFsign SFmag];
      reflexivity.
  - apply Qabs_Qle_condition in Herr. split; lra.
Qed.

Lemma shaped_signed (s : bool) (x : spec_float) :
  shaped s x -> SF2Q x == (if s then - SFmag x else SFmag x).
Proof.
  intros [-> | (m & e & ->)]; unfold SF2Q; cbn [SFsign SFmag]; reflexivity.
Qed.

Lemma SF2Q_abs (x : spec_float) : Qabs (SF2Q x) == SFmag x.
Proof.
  unfold SF2Q. pose proof (SFmag_nonneg x).
  destruct (SFsign x); [rewrite Qabs_opp |]; apply Qabs_pos; assumption.
Qed.

(** For a finite time of at most 2^40 minutes, the rounded seconds and
    hours agree within the tolerances. *)
Lemma unit_tolerance (t : float) :
  is_finite t = true -> Qabs (F2Q t) <= 2 ^ 40 ->
  Qabs (F2Q (round (t / 60) 3) - F2Q (round (t * 60) 1) / 3600) <= 1 # 1000
  /\ Qabs (F2Q (round (t * 60) 1) - F2Q t * 60) <= 1 # 10.
Proof.
  intros Hfin Hb. unfold F2Q in *.
  destruct (is_finite_shaped t Hfin) as [s Hs].
  rewrite SF2Q_abs in Hb.
  assert (E40 : 2 ^ 40 == 1099511627776) by reflexivity.
  pose proof (SFmag_nonneg (Prim2SF t)) as HM0.
  pose proof (mul60_approx t s Hs Hb) as HA.
  pose proof (div60_approx t s Hs Hb) as HH0.
  rewrite E40 in Hb.
  destruct (@approx_signed _ _ _ _ HA) as [_ HAb].
  destruct (@approx_signed _ _ _ _ HH0) as [_ HH0b].
  unfold Qdiv in HH0b. change (/ 60) with (1 # 60) in HH0b.
  assert (HS : approx s (Prim2SF (round (t * 60) 1)) (SFmag (Prim2SF (t * 60)))
                      ((1 # 2) / inject_Z (10 ^ 1) + 2 ^ Z.max (46 - 53) (-1074))).
  { apply round_approx; [lia | lia | apply HA |].
    change ((1 # 2) / inject_Z (10 ^ 1)) with (1 # 20).
    assert (E46 : 2 ^ 46 == 70368744177664) by reflexivity.
    rewrite E46. lra. }
  assert (HH : approx s (Prim2SF (round (t / 60) 3)) (SFmag (Prim2SF (t / 60)))
                      ((1 # 2) / inject_Z (10 ^ 3) + 2 ^ Z.max (35 - 53) (-1074))).
  { apply round_approx; [lia | lia | apply HH0 |].
    change ((1 # 2) / inject_Z (10 ^ 3)) with (1 # 2000).
    assert (E35 : 2 ^ 35 == 34359738368) by reflexivity.
    rewrite E35. lra. }
  change ((1 # 2) / inject_Z (10 ^ 1) + 2 ^ Z.max (46 - 53) (-1074))
    with ((1 # 20) + (1 # 128)) in HS.
  change ((1 # 2) / inject_Z (10 ^ 3) + 2 ^ Z.max (35 - 53) (-1074))
    with ((1 # 2000) + (1 # 262144)) in HH.
  destruct (@approx_signed _ _ _ _ HS) as [ES HSb].
  destruct (@approx_signed _ _ _ _ HH) as [EH HHb].
  rewrite ES, EH, (@shaped_signed _ _ Hs).
  unfold Qdiv. change (/ 3600) with (1 # 3600).
  split; apply Qabs_Qle_condition; destruct s; split; lra.
Qed.

Close Scope Q_scope.
Close Scope Z_scope.
Set Implicit Arguments.

(** *** Units of the emitted rows *)

Lemma in_combine_nth_error (A B : Type) (l : list A) (l' : list B) (a : A) (b : B) :
  In (a, b) (combine l l') ->
  exists i : nat, nth_error l i = Some a /\ nth_error l' i = Some b.
Proof.
  revert l'. induction l as [| x l IH]; intros [| y l']; simpl;
    try contradiction.
  intros [[= -> ->] | H].
  - exists 0. split; reflexivity.
  - destruct (IH l' H) as [i Hi]. exists (S i). exact Hi.
Qed.

(** In an accepted well the i-th kept value is the one of time row i. *)
Lemma accepted_cell (df : DataFrame) (col_idx T i : nat) (v : float) :
  length (od_values df col_idx T) = T ->
  nth_error (od_values df col_idx T) i = Some v ->
  od_cell df col_idx i = Some v.
Proof.
  intros Hlen Hnth.
  assert (Hi : i < T)
    by (rewrite <- Hlen; apply nth_error_Some; rewrite Hnth; discriminate).
  assert (Hmap : map (od_cell df col_idx) (seq 0 T)
                 = map Some (od_values df col_idx T)).
  { apply keep_length_all. rewrite length_seq. exact Hlen. }
  apply (f_equal (fun l => nth_error l i)) in Hmap.
  rewrite !nth_error_map, nth_error_seq, Hnth in Hmap.
  destruct (Nat.ltb_spec i T) as [_ | Hge]; [| lia].
  cbn [option_map Nat.add] in Hmap. injection Hmap as Hcell. exact Hcell.
Qed.

(** C5 (amended): every emitted row comes from an extracted timepoint
    [time_min] and the value [od_val] parsed from the cell of its well in
    that time row; its Time_s is Python's [round(time_min * 60, 1)], its
    Time_h is [round(time_min / 60, 3)] and its OD is [round(od_val, 4)],
    all computed on binary64 numbers.  When the time is finite and at most
    2^40 minutes in magnitude, the exact values of these floats satisfy
    |Time_h - Time_s / 3600| <= 1e-3 and |Time_s - 60 * time_min| <= 1e-1. *)
Theorem emitted_row_units (df : DataFrame)
        (well_names : list string) (time_minutes : list float)
        (output_data : list Row) (r : Row) :
  extract_well_names df = Ok well_names ->
  extract_time_minutes df = Ok time_minutes ->
  extract_output_data df = Ok output_data ->
  In r output_data ->
  exists (well_idx : nat) (well_name : string) (i : nat)
         (time_min od_val : float),
    nth_error well_names well_idx = Some well_name
    /\ nth_error time_minutes i = Some time_min
    /\ py_float (cell_at df (data_start_row + i) (data_col_start + well_idx))
       = Some od_val
    /\ Well r = well_name
    /\ Time_s r = round (time_min * 60) 1
    /\ Time_h r = round (time_min / 60) 3
    /\ OD r = round od_val 4
    /\ (is_finite time_min = true ->
        (Qabs (F2Q time_min) <= 2 ^ 40)%Q ->
        (Qabs (F2Q (Time_h r) - F2Q (Time_s r) / 3600) <= 1 # 1000)%Q
        /\ (Qabs (F2Q (Time_s r) - F2Q time_min * 60) <= 1 # 10)%Q).
Proof.
  intros Hw Ht Hdata Hin.
  rewrite (extract_output_data_wells df Hw Ht) in Hdata.
  injection Hdata as <-.
  apply in_flat_map in Hin. destruct Hin as [[well_idx well_name] [Hwell Hin]].
  apply in_enumerate in Hwell.
  unfold contribution, well_rows in Hin. cbn [fst snd] in Hin.
  destruct (Nat.eqb_spec
              (length (od_values df (data_col_start + well_idx)
                                 (length time_minutes)))
              (length time_minutes)) as [Hlen | Hlen]; [| contradiction].
  apply in_map_iff in Hin. destruct Hin as [[time_min od_val] [Hr Hpair]].
  apply in_combine_nth_error in Hpair. destruct Hpair as [i [Hi Hv]].
  apply (accepted_cell _ _ _ Hlen) in Hv.
  apply od_cell_Some in Hv. destruct Hv as (_ & _ & Hfl).
  exists well_idx, well_name, i, time_min, od_val.
  subst r. cbn [make_row Well Time_s Time_h OD].
  repeat split; try assumption.
  - apply unit_tolerance; assumption.
  - apply unit_tolerance; assumption.
Qed.

(** *** The example of the specification *)

(** C1: on the grid whose header row names wells A1 and A2 from column 2
    on, whose time column holds 0, 30 and 60 minutes and whose OD columns
    hold 0.100, 0.150, 0.200 and 0.110, 0.160, 0.210, the conversion yields
    exactly the six rows (A1, 0.0, 0.0, 0.1), (A1, 1800.0, 0.5, 0.15),
    (A1, 3600.0, 1.0, 0.2), (A2, 0.0, 0.0, 0.11), (A2, 1800.0, 0.5, 0.16),
    (A2, 3600.0, 1.0, 0.21), in that order, whatever the other cells hold;
    they are what the routine writes, and it returns True when the write
    succeeds. *)
Theorem example_conversion (other : nat -> nat -> Cell) :
  convert_rows (example_frame other) = Ok sample_rows
  /\ length sample_rows = 6
  /\ conversion_body (Ok (example_frame other)) (fun _ => Ok tt)
     = Ok sample_rows
  /\ convert_bacterial_growth_data (Ok (example_frame other)) (fun _ => Ok tt)
     = true.
Proof.
  assert (H : convert_rows (example_frame other) = Ok sample_rows)
    by (vm_compute; reflexivity).
  unfold convert_bacterial_growth_data, conversion_body. cbn [bind].
  rewrite H. repeat split.
Qed.

(** ** The well names *)





Lemma scan_wells_prefix (df : DataFrame) :
  header_row < nrows df ->
  forall cols : list nat,
    (forall c, In c cols -> c < ncols df) ->
    let header := map (fun c => cell_at df header_row c) cols in
    exists n : nat,
      scan_wells df cols
      = Ok (map (fun v => strip (py_str v)) (firstn n header))
      /\ n <= length header
      /\ forallb notna (firstn n header) = true
      /\ (n < length header -> notna (nth n header CEmpty) = false).
Proof.
  intros Hr. induction cols as [| c cols IH]; intros Hin header.
  - exists 0. subst header. simpl. repeat split; auto; lia.
  - assert (Hc : c < ncols df) by (apply Hin; left; reflexivity).
    destruct IH as (n & Hscan & Hn & Hall & Hstop).
    { intros c' Hc'. apply Hin. right. exact Hc'. }
    subst header. cbn [scan_wells map].
    rewrite (iloc_inside _ Hr Hc). cbn [bind].
    destruct (notna (cell_at df header_row c)) eqn:Hna.
    + exists (S n). rewrite Hscan. cbn [bind firstn forallb map length nth].
      rewrite Hna. cbn [andb]. repeat split.
      * lia.
      * exact Hall.
      * intros Hlt. apply Hstop. lia.
    + exists 0. cbn [firstn forallb map length nth].
      repeat split; try reflexivity; try lia.
      intros _. exact Hna.
Qed.

Lemma range_inside (a b r : nat) : In r (range a b) -> a <= r < b.
Proof. unfold range. intros H. apply in_seq in H. lia. Qed.

(** Without a header row the first lookup of the loop fails; there is a
    first lookup as soon as the frame has a third column. *)
Lemma extract_well_names_no_header (df : DataFrame) :
  nrows df <= header_row ->
  extract_well_names df
  = if data_col_start <? ncols df then Raise IndexError else Ok [].
Proof.
  intros Hr. unfold extract_well_names, range.
  destruct (data_col_start <? ncols df) eqn:Hc.
  - apply Nat.ltb_lt in Hc.
    destruct (ncols df - data_col_start) as [| k] eqn:Hk; [lia |].
    cbn [seq scan_wells]. unfold iloc.
    assert (E : (header_row <? nrows df) = false) by (apply Nat.ltb_ge; exact Hr).
    rewrite E. reflexivity.
  - apply Nat.ltb_ge in Hc.
    replace (ncols df - data_col_start) with 0 by lia. reflexivity.
Qed.

Lemma extract_well_names_header (df : DataFrame) :
  header_row < nrows df ->
  exists well_names, extract_well_names df = Ok well_names.
Proof.
  intros Hr.
  destruct (scan_wells_prefix df Hr (range data_col_start (ncols df)))
    as (n & Hscan & _).
  - intros c Hc. apply range_inside in Hc. lia.
  - eexists. exact Hscan.
Qed.


(** ** Which exceptions the conversion raises *)

Lemma extract_time_minutes_no_column (df : DataFrame) :
  ncols df <= time_col ->
  extract_time_minutes df
  = if data_start_row <? nrows df then Raise IndexError else Ok [].
Proof.
  intros Hc. unfold extract_time_minutes, range.
  destruct (data_start_row <? nrows df) eqn:Hr.
  - apply Nat.ltb_lt in Hr.
    destruct (nrows df - data_start_row) as [| k] eqn:Hk; [lia |].
    cbn [seq scan_times]. unfold iloc.
    assert (E : (time_col <? ncols df) = false) by (apply Nat.ltb_ge; exact Hc).
    rewrite E, andb_false_r. reflexivity.
  - apply Nat.ltb_ge in Hr.
    replace (nrows df - data_start_row) with 0 by lia. reflexivity.
Qed.

Lemma extract_output_data_cases (df : DataFrame) :
  ((header_row_missing df \/ time_column_missing df)
   /\ extract_output_data df = Raise IndexError)
  \/
  (~ header_row_missing df /\ ~ time_column_missing df
   /\ exists output_data, extract_output_data df = Ok output_data).
Proof.
  unfold header_row_missing, time_column_missing.
  assert (Hn : (exists e, extract_well_names df = Raise e /\ e = IndexError
                          /\ nrows df <= header_row /\ data_col_start < ncols df)
               \/ (~ (nrows df <= header_row /\ data_col_start < ncols df)
                   /\ exists ws, extract_well_names df = Ok ws)).
  { destruct (Nat.lt_ge_cases header_row (nrows df)) as [Hr | Hr].
    - right. split; [lia |].
      apply extract_well_names_header. exact Hr.
    - rewrite (extract_well_names_no_header df Hr).
      destruct (data_col_start <? ncols df) eqn:Hc.
      + apply Nat.ltb_lt in Hc. left. exists IndexError. auto.
      + apply Nat.ltb_ge in Hc. right. split; [lia | eauto]. }
  assert (Ht : (extract_time_minutes df = Raise IndexError
                /\ ncols df <= time_col /\ data_start_row < nrows df)
               \/ (~ (ncols df <= time_col /\ data_start_row < nrows df)
                   /\ exists ts, extract_time_minutes df = Ok ts)).
  { destruct (Nat.lt_ge_cases time_col (ncols df)) as [Hc | Hc].
    - right. split; [lia |].
      assert (Hin : forall r, In r (range data_start_row (nrows df)) -> r < nrows df).
      { intros r Hr. apply range_inside in Hr. lia. }
      destruct (scan_times_prefix df Hc _ Hin) as (ts & n & Hscan & _).
      exists ts. exact Hscan.
    - rewrite (extract_time_minutes_no_column df Hc).
      destruct (data_start_row <? nrows df) eqn:Hr.
      + apply Nat.ltb_lt in Hr. left. auto.
      + apply Nat.ltb_ge in Hr. right. split; [lia | eauto]. }
  destruct Hn as [(e & Hw & -> & Hn) | (Hn & ws & Hw)].
  - left. split; [left; exact Hn |].
    unfold extract_output_data. rewrite Hw. reflexivity.
  - destruct Ht as [(Ht & Hm) | (Hm & ts & Ht)].
    + left. split; [right; exact Hm |].
      unfold extract_output_data. rewrite Hw, Ht. reflexivity.
    + right. repeat split; try assumption.
      eexists. apply extract_output_data_wells; eassumption.
Qed.

(** X2: the conversion of a frame raises IndexError exactly when the frame
    has a third column but no header row (row 8), or has a data row (row
    9) but no time column (column 1); it raises ValueError exactly when
    the extraction ends with an empty [output_data]; it raises nothing
    else; and it returns a frame exactly when [output_data] has a row. *)
Theorem conversion_errors (df : DataFrame) :
  (convert_rows df = Raise IndexError
   <-> header_row_missing df \/ time_column_missing df)
  /\ (convert_rows df = Raise ValueError <-> extract_output_data df = Ok [])
  /\ (forall e : exn,
         convert_rows df = Raise e -> e = IndexError \/ e = ValueError)
  /\ ((exists output_df, convert_rows df = Ok output_df)
      <-> exists r output_data, extract_output_data df = Ok (r :: output_data)).
Proof.
  unfold convert_rows.
  destruct (extract_output_data_cases df)
    as [(Hm & Hex) | (Hh & Ht & output_data & Hex)]; rewrite Hex; cbn [bind].
  - repeat split; try (intros; auto; fail); try discriminate.
    + intros e [= <-]. left. reflexivity.
    + intros (output_df & H). discriminate H.
    + intros (r & data & H). discriminate H.
  - destruct output_data as [| r data].
    + repeat split; try discriminate; auto.
      * intros [H | H]; contradiction.
      * intros e [= <-]. right. reflexivity.
      * intros (output_df & H). discriminate H.
      * intros (r & data & H). discriminate H.
    + repeat split; try discriminate; eauto.
      intros [H | H]; contradiction.
Qed.

(** ** What the conversion reads of the frame *)

Lemma iloc_agree (df1 df2 : DataFrame) (r c : nat) :
  nrows df1 = nrows df2 -> ncols df1 = ncols df2 ->
  (r < nrows df1 -> c < ncols df1 -> cell_at df1 r c = cell_at df2 r c) ->
  iloc df1 r c = iloc df2 r c.
Proof.
  intros Hr Hc H. unfold iloc. rewrite <- Hr, <- Hc.
  destruct (r <? nrows df1) eqn:E1; [| reflexivity].
  destruct (c <? ncols df1) eqn:E2; [| reflexivity].
  apply Nat.ltb_lt in E1. apply Nat.ltb_lt in E2.
  cbn [andb]. rewrite H by assumption. reflexivity.
Qed.

Lemma scan_wells_agree (df1 df2 : DataFrame) :
  same_data df1 df2 ->
  forall cols : list nat,
    (forall c, In c cols -> data_col_start <= c) ->
    scan_wells df1 cols = scan_wells df2 cols.
Proof.
  intros (Hr & Hc & Hh & _). induction cols as [| c cols IH]; intros Hin.
  - reflexivity.
  - cbn [scan_wells].
    rewrite (@iloc_agree df1 df2 header_row c Hr Hc).
    + rewrite IH by (intros c' Hc'; apply Hin; right; exact Hc').
      reflexivity.
    + intros _ Hlt. apply Hh. split; [apply Hin; left; reflexivity | exact Hlt].
Qed.

Lemma scan_times_agree (df1 df2 : DataFrame) :
  same_data df1 df2 ->
  forall rows : list nat,
    (forall r, In r rows -> data_start_row <= r) ->
    scan_times df1 rows = scan_times df2 rows.
Proof.
  intros (Hr & Hc & _ & Ht & _). induction rows as [| r rows IH]; intros Hin.
  - reflexivity.
  - cbn [scan_times].
    rewrite (@iloc_agree df1 df2 r time_col Hr Hc).
    + rewrite IH by (intros r' Hr'; apply Hin; right; exact Hr').
      reflexivity.
    + intros Hlt _. apply Ht. split; [apply Hin; left; reflexivity | exact Hlt].
Qed.

Lemma scan_od_agree (df1 df2 : DataFrame) (col_idx : nat) :
  same_data df1 df2 ->
  data_col_start <= col_idx ->
  forall rows : list (nat * float),
    scan_od df1 col_idx rows = scan_od df2 col_idx rows.
Proof.
  intros (Hr & Hc & _ & _ & Hd) Hcol.
  induction rows as [| [row_idx t] rows IH].
  - reflexivity.
  - cbn [scan_od]. rewrite <- Hr, IH.
    destruct (data_start_row + row_idx <? nrows df1) eqn:E; [| reflexivity].
    rewrite (@iloc_agree df1 df2 (data_start_row + row_idx) col_idx Hr Hc).
    + reflexivity.
    + intros Hlt Hlt'. apply Hd; lia.
Qed.

Lemma well_loop_agree (df1 df2 : DataFrame) (time_minutes : list float) :
  same_data df1 df2 ->
  forall wells : list (nat * string),
    well_loop df1 time_minutes wells = well_loop df2 time_minutes wells.
Proof.
  intros Hs. induction wells as [| [well_idx well_name] wells IH].
  - reflexivity.
  - cbn [well_loop]. rewrite IH.
    rewrite (@scan_od_agree df1 df2 (data_col_start + well_idx) Hs) by lia.
    destruct Hs as (_ & Hc & _). rewrite Hc. reflexivity.
Qed.

Lemma extract_output_data_agree (df1 df2 : DataFrame) :
  same_data df1 df2 -> extract_output_data df1 = extract_output_data df2.
Proof.
  intros Hs. unfold extract_output_data, extract_well_names, extract_time_minutes.
  pose proof Hs as (Hr & Hc & _). rewrite <- Hr, <- Hc.
  rewrite (@scan_wells_agree df1 df2 Hs)
    by (intros c H; apply range_inside in H; lia).
  rewrite (@scan_times_agree df1 df2 Hs)
    by (intros r H; apply range_inside in H; lia).
  destruct (scan_wells df2 (range data_col_start (ncols df1))) as [ws | e];
    [| reflexivity].
  destruct (scan_times df2 (range data_start_row (nrows df1))) as [ts | e];
    [| reflexivity].
  cbn [bind]. apply well_loop_agree. exact Hs.
Qed.

(** X3: the conversion reads nothing of the sheet but its shape, the
    header row from column 2 on, the time column from row 9 on and the
    block of readings below and to the right of them: two frames that
    agree there convert alike, to the same rows or to the same exception,
    whatever rows 0 to 7 and column 0 hold, and the whole routine returns
    the same verdict on them. *)
Theorem conversion_reads_data_block_only (df1 df2 : DataFrame)
        (to_csv : list Row -> result unit) :
  same_data df1 df2 ->
  convert_rows df1 = convert_rows df2
  /\ convert_bacterial_growth_data (Ok df1) to_csv
     = convert_bacterial_growth_data (Ok df2) to_csv.
Proof.
  intros Hs.
  assert (H : convert_rows df1 = convert_rows df2).
  { unfold convert_rows. rewrite (extract_output_data_agree Hs). reflexivity. }
  split; [exact H |].
  unfold convert_bacterial_growth_data, conversion_body. cbn [bind].
  rewrite H. reflexivity.
Qed.

(** ** How many rows the wells contribute *)

Lemma contribution_length (df : DataFrame) (time_minutes : list float)
      (w : nat * string) :
  length (contribution df time_minutes w)
  = if accepted df (length time_minutes) w then length time_minutes else 0.
Proof.
  unfold contribution, well_rows, accepted.
  destruct (_ =? _) eqn:E; [| reflexivity].
  apply Nat.eqb_eq in E. rewrite length_map, length_combine. lia.
Qed.

Lemma contributions_count (df : DataFrame) (time_minutes : list float)
      (wells : list (nat * string)) :
  length (flat_map (contribution df time_minutes) wells)
  = length (filter (accepted df (length time_minutes)) wells)
    * length time_minutes.
Proof.
  induction wells as [| w wells IH]; cbn [flat_map filter].
  - reflexivity.
  - rewrite length_app, IH, contribution_length.
    destruct (accepted df (length time_minutes) w); simpl; lia.
Qed.

Lemma filter_length_le (A : Type) (p : A -> bool) (l : list A) :
  length (filter p l) <= length l.
Proof.
  induction l as [| a l IH]; simpl; [lia |].
  destruct (p a); simpl; lia.
Qed.

Lemma filter_length_all (A : Type) (p : A -> bool) (l : list A) :
  length (filter p l) = length l -> forall x, In x l -> p x = true.
Proof.
  induction l as [| a l IH]; simpl; intros H x Hx; [contradiction |].
  pose proof (filter_length_le p l) as Hle.
  destruct (p a) eqn:E; simpl in H.
  - destruct Hx as [<- | Hx]; [exact E | apply IH; [lia | exact Hx]].
  - lia.
Qed.

Lemma accepted_complete (df : DataFrame) (T : nat) (w : nat * string) :
  accepted df T w = true -> complete df T (fst w).
Proof.
  unfold accepted, od_values. intros H. apply Nat.eqb_eq in H.
  assert (Hlen : length (flat_map
                           (fun i => keep (od_cell df (data_col_start + fst w) i))
                           (seq 0 T))
                 = length (seq 0 T)) by (rewrite length_seq; exact H).
  apply keep_length_all in Hlen.
  intros i Hi Hnone.
  assert (Hin : In (od_cell df (data_col_start + fst w) i)
                   (map (od_cell df (data_col_start + fst w)) (seq 0 T))).
  { apply in_map. apply in_seq. lia. }
  rewrite Hlen, Hnone in Hin. apply in_map_iff in Hin.
  destruct Hin as (x & Hx & _). discriminate Hx.
Qed.

(** X4: with W well names and T timepoints, [output_data] has T rows for
    each accepted well and no other row, hence at most W * T rows; and
    when T is not zero it has W * T rows only if no cell of any well was
    skipped over the time range. *)
Theorem output_row_count (df : DataFrame)
        (well_names : list string) (time_minutes : list float) :
  extract_well_names df = Ok well_names ->
  extract_time_minutes df = Ok time_minutes ->
  exists output_data : list Row,
    extract_output_data df = Ok output_data
    /\ length output_data
       = length (filter (accepted df (length time_minutes))
                        (enumerate well_names))
         * length time_minutes
    /\ length output_data <= length well_names * length time_minutes
    /\ (0 < length time_minutes ->
        length output_data = length well_names * length time_minutes ->
        forall well_idx, well_idx < length well_names ->
                         complete df (length time_minutes) well_idx).
Proof.
  intros Hw Ht.
  exists (flat_map (contribution df time_minutes) (enumerate well_names)).
  split; [apply extract_output_data_wells; assumption |].
  pose proof (contributions_count df time_minutes (enumerate well_names)) as Hn.
  pose proof (filter_length_le (accepted df (length time_minutes))
                               (enumerate well_names)) as Hle.
  assert (He : length (enumerate well_names) = length well_names).
  { unfold enumerate. rewrite length_combine, length_seq. lia. }
  rewrite He in Hle.
  split; [exact Hn |]. split.
  - rewrite Hn. apply Nat.mul_le_mono_r. exact Hle.
  - intros HT Hall well_idx Hidx.
    rewrite Hn in Hall. apply Nat.mul_cancel_r in Hall; [| lia].
    rewrite <- He in Hall.
    destruct (nth_error well_names well_idx) as [name |] eqn:Hnth.
    + apply (@accepted_complete df (length time_minutes) (well_idx, name)).
      apply (filter_length_all _ _ Hall).
      apply nth_error_In with well_idx.
      apply nth_error_enumerate. exact Hnth.
    + apply nth_error_None in Hnth. lia.
Qed.

(** ** Sorting a sorted list *)

Lemma insert_row_least (r : Row) (l : list Row) :
  Forall (row_le r) l -> insert_row r l = r :: l.
Proof.
  intros H. destruct l as [| h t]; [reflexivity |].
  inversion H as [| ? ? Hh _]; subst. cbn [insert_row].
  unfold row_le in Hh. rewrite Hh. reflexivity.
Qed.

Lemma sort_values_of_sorted (l : list Row) :
  StronglySorted row_le l -> sort_values l = l.
Proof.
  induction 1 as [| a l Hs IH Ha].
  - reflexivity.
  - change (sort_values (a :: l)) with (insert_row a (sort_values l)).
    rewrite IH. apply insert_row_least. exact Ha.
Qed.

(** X5: the sort leaves a list of rows as it is exactly when the list is
    already in the order of (Well, Time_s); so sorting a second time
    changes nothing. *)
Theorem sort_values_fixes_sorted (l : list Row) :
  (sort_values l = l <-> StronglySorted row_le l)
  /\ sort_values (sort_values l) = sort_values l.
Proof.
  split; [split |].
  - intros H. rewrite <- H. apply sort_values_sorted.
  - apply sort_values_of_sorted.
  - apply sort_values_of_sorted, sort_values_sorted.
Qed.

(** ** The rounding of the OD value *)

(** X6: the OD value of a row is within 0.00005, plus the 2^-42 the
    division by 10^4 may add, of the reading it was rounded from
    (line 123), for every finite reading of magnitude at most 1024. *)
Theorem od_rounding_error (well_name : string) (time_min od_val : float) :
  is_finite od_val = true ->
  (Qabs (F2Q od_val) <= 2 ^ 10)%Q ->
  (Qabs (F2Q (OD (make_row well_name (time_min, od_val))) - F2Q od_val)
   <= (1 # 20000) + 2 ^ (-42))%Q.
Proof.
  intros Hfin Hb. cbn [make_row OD]. unfold F2Q in *.
  destruct (is_finite_shaped od_val Hfin) as [s Hs].
  rewrite SF2Q_abs in Hb.
  assert (E10 : (2 ^ 10 == 1024)%Q) by reflexivity.
  rewrite E10 in Hb.
  pose proof (SFmag_nonneg (Prim2SF od_val)) as HM0.
  assert (HR : approx s (Prim2SF (round od_val 4)) (SFmag (Prim2SF od_val))
                      ((1 # 2) / inject_Z (10 ^ 4) + 2 ^ Z.max (11 - 53) (-1074))%Q).
  { apply round_approx; [lia | lia | exact Hs |].
    change ((1 # 2) / inject_Z (10 ^ 4))%Q with (1 # 20000)%Q.
    assert (E11 : (2 ^ 11 == 2048)%Q) by reflexivity.
    rewrite E11. lra. }
  change ((1 # 2) / inject_Z (10 ^ 4) + 2 ^ Z.max (11 - 53) (-1074))%Q
    with ((1 # 20000) + (1 # 4398046511104))%Q in HR.
  assert (E42 : (2 ^ (-42) == 1 # 4398046511104)%Q) by reflexivity.
  rewrite E42.
  destruct (@approx_signed _ _ _ _ HR) as [ER HRb].
  rewrite ER, (@shaped_signed _ _ Hs).
  apply Qabs_Qle_condition; destruct s; split; lra.
Qed.

(** ** [main] *)

Lemma conversion_true (read_excel : result DataFrame)
      (to_csv : list Row -> result unit) :
  convert_bacterial_growth_data read_excel to_csv = true ->
  exists (df : DataFrame) (output_df : list Row),
    read_excel = Ok df
    /\ convert_rows df = Ok output_df
    /\ to_csv output_df = Ok tt.
Proof.
  unfold convert_bacterial_growth_data, conversion_body.
  destruct read_excel as [df | e]; cbn [bind]; [| discriminate].
  destruct (convert_rows df) as [output_df | e] eqn:Hc; cbn [bind];
    [| discriminate].
  destruct (to_csv output_df) as [[] | e] eqn:E; cbn [bind]; [| discriminate].
  intros _. exists df, output_df. repeat split; reflexivity || assumption.
Qed.

Lemma main_status (w : World) (argv : list string) :
  fst (main w argv)
  = match argv with
    | [_; excel_file; output_csv] =>
        if path_exists w excel_file
           && convert_bacterial_growth_data (read_excel_at w excel_file)
                                            (to_csv_at w output_csv)
        then 0 else 1
    | _ => 1
    end.
Proof.
  destruct argv as [| script [| excel_file [| output_csv [| extra argv]]]];
    try reflexivity.
  cbn [main]. destruct (path_exists w excel_file); [| reflexivity].
  cbn [negb andb].
  destruct (convert_bacterial_growth_data _ _); [| reflexivity].
  destruct (validate_csv_output _); reflexivity.
Qed.

(** X7: [main] exits with status 0 exactly when it was given two
    arguments, the input path exists and the conversion returned True,
    and with status 1 otherwise.  The validation of the written file has
    no part in the status: a file that fails it only changes the last
    message, and a world that differs in what [pd.read_csv] yields gives
    the same status. *)
Theorem main_exit_status (w : World) (argv : list string) :
  (fst (main w argv) = 0 <->
   exists script excel_file output_csv : string,
     argv = [script; excel_file; output_csv]
     /\ path_exists w excel_file = true
     /\ convert_bacterial_growth_data (read_excel_at w excel_file)
                                      (to_csv_at w output_csv) = true)
  /\ (fst (main w argv) = 0 \/ fst (main w argv) = 1)
  /\ (snd (main w argv) = CompletedWithWarning -> fst (main w argv) = 0)
  /\ (forall read_csv' : string -> result CsvFrame,
         fst (main {| path_exists := path_exists w;
                      read_excel_at := read_excel_at w;
                      to_csv_at := to_csv_at w;
                      read_csv_at := read_csv' |} argv)
         = fst (main w argv)).
Proof.
  split; [| split; [| split]].
  - rewrite main_status. split.
    + destruct argv as [| script [| excel_file [| output_csv [| extra argv]]]];
        try discriminate.
      destruct (path_exists w excel_file) eqn:Hp; [| discriminate].
      destruct (convert_bacterial_growth_data _ _) eqn:Hc; [| discriminate].
      intros _. exists script, excel_file, output_csv. auto.
    + intros (script & excel_file & output_csv & -> & -> & ->). reflexivity.
  - rewrite main_status.
    destruct argv as [| script [| excel_file [| output_csv [| extra argv]]]];
      auto.
    destruct (_ && _); auto.
  - intros Hm. rewrite main_status.
    destruct argv as [| script [| excel_file [| output_csv [| extra argv]]]];
      try discriminate Hm.
    cbn [main] in Hm.
    destruct (path_exists w excel_file); [| discriminate Hm].
    destruct (convert_bacterial_growth_data _ _); [reflexivity |].
    discriminate Hm.
  - intros read_csv'. rewrite !main_status. reflexivity.
Qed.

(** X8: when [main] exits with status 0, the spreadsheet at the input
    path was read, its conversion gave at least one row, the rows written
    to the output path are those of the conversion, in the order of
    (Well, Time_s), and the writing did not fail. *)
Theorem main_success_output (w : World) (argv : list string) :
  fst (main w argv) = 0 ->
  exists (script excel_file output_csv : string) (df : DataFrame)
         (output_df : list Row),
    argv = [script; excel_file; output_csv]
    /\ read_excel_at w excel_file = Ok df
    /\ convert_rows df = Ok output_df
    /\ to_csv_at w output_csv output_df = Ok tt
    /\ output_df <> []
    /\ StronglySorted row_le output_df.
Proof.
  destruct argv as [| script [| excel_file [| output_csv [| extra argv]]]];
    cbn [main fst]; try discriminate.
  destruct (path_exists w excel_file); cbn [negb fst]; [| discriminate].
  destruct (convert_bacterial_growth_data (read_excel_at w excel_file)
                                          (to_csv_at w output_csv)) eqn:Hc;
    [| discriminate].
  intros _. apply conversion_true in Hc.
  destruct Hc as (df & output_df & Hread & Hconv & Hwrite).
  exists script, excel_file, output_csv, df, output_df.
  repeat split; try assumption.
  - unfold convert_rows in Hconv.
    destruct (extract_output_data df) as [[| r l] | e]; cbn [bind] in Hconv;
      try discriminate Hconv.
    injection Hconv as <-. intros Hnil.
    apply (f_equal (@length Row)) in Hnil.
    change (insert_row r (sort_values l)) with (sort_values (r :: l)) in Hnil.
    rewrite sort_values_length in Hnil. discriminate Hnil.
  - unfold convert_rows in Hconv.
    destruct (extract_output_data df) as [[| r l] | e]; cbn [bind] in Hconv;
      try discriminate Hconv.
    injection Hconv as <-. apply (sort_values_sorted (r :: l)).
Qed.

(** ** The guards of the well loop *)

Lemma scan_times_length (df : DataFrame) :
  forall (rows : list nat) (ts : list float),
    scan_times df rows = Ok ts -> length ts <= length rows.
Proof.
  induction rows as [| r rows IH]; simpl; intros ts H.
  - injection H as <-. simpl. lia.
  - apply bind_Ok in H. destruct H as [time_val [_ H]].
    destruct (notna time_val).
    + destruct (py_float time_val) as [t |].
      * apply bind_Ok in H. destruct H as [rest [Hrest H]].
        injection H as <-. simpl. apply IH in Hrest. lia.
      * injection H as <-. simpl. lia.
    + injection H as <-. simpl. lia.
Qed.

(** X12: the two guards of the well loop never fire.  A well name was
    read from its own column of the frame, so the column index of line 97
    is always inside it and the [break] of line 100 is never reached; a
    timepoint was read from its own row, so the row index of line 105
    always passes the test of line 106.  There are then at most
    [ncols - 2] wells and [nrows - 9] timepoints. *)
Theorem loop_guards_never_fire (df : DataFrame)
        (well_names : list string) (time_minutes : list float) :
  extract_well_names df = Ok well_names ->
  extract_time_minutes df = Ok time_minutes ->
  (forall well_idx well_name,
      In (well_idx, well_name) (enumerate well_names) ->
      (ncols df <=? data_col_start + well_idx) = false)
  /\ (forall row_idx time_min,
         In (row_idx, time_min) (enumerate time_minutes) ->
         (data_start_row + row_idx <? nrows df) = true)
  /\ length well_names <= ncols df - data_col_start
  /\ length time_minutes <= nrows df - data_start_row.
Proof.
  intros Hw Ht.
  assert (HW : length well_names <= ncols df - data_col_start).
  { unfold extract_well_names, range in Hw.
    apply scan_wells_length in Hw. rewrite length_seq in Hw. exact Hw. }
  assert (HT : length time_minutes <= nrows df - data_start_row).
  { unfold extract_time_minutes, range in Ht.
    apply scan_times_length in Ht. rewrite length_seq in Ht. exact Ht. }
  repeat split; try assumption.
  - intros well_idx well_name Hin. unfold enumerate in Hin.
    apply in_combine_l in Hin. apply in_seq in Hin.
    apply Nat.leb_gt. lia.
  - intros row_idx time_min Hin. unfold enumerate in Hin.
    apply in_combine_l in Hin. apply in_seq in Hin.
    apply Nat.ltb_lt. lia.
Qed.

(** ** The wells in the sorted output *)

Lemma sorted_before (A : Type) (R : A -> A -> Prop) (b : A) :
  forall l l' : list A,
    StronglySorted R (l ++ b :: l') -> Forall (fun r => R r b) l.
Proof.
  induction l as [| a l IH]; intros l' H.
  - constructor.
  - cbn [app] in H. inversion H as [| ? ? Hs Ha]; subst. constructor.
    + rewrite Forall_forall in Ha. apply Ha. apply in_or_app.
      right. left. reflexivity.
    + apply IH with l'. exact Hs.
Qed.

Lemma sorted_suffix (A : Type) (R : A -> A -> Prop) :
  forall l l' : list A, StronglySorted R (l ++ l') -> StronglySorted R l'.
Proof.
  induction l as [| a l IH]; intros l' H.
  - exact H.
  - cbn [app] in H. inversion H; subst. apply IH. assumption.
Qed.

Lemma same_well_between (a r b : Row) :
  row_le a r -> row_le r b -> Well a = Well b -> Well r = Well a.
Proof.
  unfold row_le. intros Har Hrb Hab.
  apply row_leb_spec in Har. apply row_leb_spec in Hrb.
  destruct Har as [Har | [Har _]]; [| symmetry; exact Har].
  destruct Hrb as [Hrb | [Hrb _]]; [| congruence].
  pose proof (string_compare_lt_trans _ _ _ Har Hrb) as Hlt.
  rewrite Hab, string_compare_refl in Hlt. discriminate Hlt.
Qed.

(** X13: in the output of the conversion the rows of a well stand
    together: between two rows of the same well there are only rows of
    that well. *)
Theorem output_grouped_by_well (df : DataFrame)
        (before between after : list Row) (a b : Row) :
  convert_rows df = Ok (before ++ a :: between ++ b :: after) ->
  Well a = Well b ->
  Forall (fun r => Well r = Well a) between.
Proof.
  intros Hconv Hab.
  assert (Hs : StronglySorted row_le (before ++ a :: between ++ b :: after)).
  { unfold convert_rows in Hconv.
    destruct (extract_output_data df) as [[| r l] | e]; cbn [bind] in Hconv;
      try discriminate Hconv.
    injection Hconv as <-. apply (sort_values_sorted (r :: l)). }
  apply sorted_suffix in Hs.
  inversion Hs as [| ? ? Htail Ha]; subst.
  apply sorted_before in Htail.
  rewrite Forall_forall in *. intros r Hr.
  apply same_well_between with b.
  - apply Ha. apply in_or_app. left. exact Hr.
  - apply Htail. exact Hr.
  - exact Hab.
Qed.

End Converter.

(** ** The theorems at the sample frames *)

Lemma time_minutes_longest_prefix_witness :
  exists n : nat,
    n <= length (time_column gap_frame)
    /\ length [0; 30; 60]%float = n
    /\ forallb (parseable text_is_no_number) (firstn n (time_column gap_frame))
       = true
    /\ map (py_float text_is_no_number) (firstn n (time_column gap_frame))
       = map Some [0; 30; 60]%float
    /\ (n < length (time_column gap_frame) ->
        parseable text_is_no_number (nth n (time_column gap_frame) CEmpty)
        = false).
Proof.
  apply (proj2 (time_minutes_longest_prefix text_is_no_number gap_frame)).
  vm_compute. reflexivity.
Defined.

Lemma complete_grid_row_count_witness :
  exists output_data : list Row,
    extract_output_data text_is_no_number number_as_text (example_frame blank)
    = Ok output_data
    /\ length output_data = 2 * 3
    /\ (0 < 2 * 3 ->
        exists output_df : list Row,
          convert_rows text_is_no_number number_as_text (example_frame blank)
          = Ok output_df
          /\ length output_df = 2 * 3).
Proof.
  apply (@complete_grid_row_count text_is_no_number number_as_text
           (example_frame blank) ["A1"; "A2"]%string [0; 30; 60]%float).
  - vm_compute. reflexivity.
  - vm_compute. reflexivity.
  - intros well_idx Hw i Hi. simpl in Hw, Hi.
    destruct well_idx as [| [| well_idx]]; [| | lia];
      (destruct i as [| [| [| i]]]; [| | | lia]); vm_compute; discriminate.
Defined.

Lemma partial_well_excluded_witness :
  contribution text_is_no_number gap_frame [0; 30; 60]%float (1, "A2"%string)
  = []
  /\ extract_output_data text_is_no_number number_as_text gap_frame
     = Ok (flat_map (contribution text_is_no_number gap_frame [0; 30; 60]%float)
                    (filter (fun w => negb (fst w =? 1))
                            (enumerate ["A1"; "A2"]%string)))
  /\ (forall other : nat,
         other < length ["A1"; "A2"]%string ->
         complete text_is_no_number gap_frame
                  (length [0; 30; 60]%float) other ->
         exists output_df : list Row,
           convert_rows text_is_no_number number_as_text gap_frame
           = Ok output_df
           /\ output_df <> []
           /\ forall to_csv : list Row -> result unit,
               to_csv output_df = Ok tt ->
               convert_bacterial_growth_data text_is_no_number number_as_text
                                             (Ok gap_frame) to_csv = true).
Proof.
  apply (@partial_well_excluded text_is_no_number number_as_text gap_frame
           ["A1"; "A2"]%string [0; 30; 60]%float 1 "A2"%string).
  - vm_compute. reflexivity.
  - vm_compute. reflexivity.
  - reflexivity.
  - vm_compute. lia.
Defined.

Lemma accepted_well_aligned_witness :
  extract_output_data text_is_no_number number_as_text gap_frame
  = Ok (flat_map (contribution text_is_no_number gap_frame [0; 30; 60]%float)
                 (enumerate ["A1"; "A2"]%string))
  /\ nth_error (enumerate ["A1"; "A2"]%string) 0 = Some (0, "A1"%string)
  /\ length (contribution text_is_no_number gap_frame [0; 30; 60]%float
                          (0, "A1"%string))
     = length [0; 30; 60]%float
  /\ forall (i : nat) (time_min : float),
      nth_error [0; 30; 60]%float i = Some time_min ->
      exists od_val : float,
        data_start_row + i < nrows gap_frame
        /\ notna (cell_at gap_frame (data_start_row + i) (data_col_start + 0))
           = true
        /\ py_float text_is_no_number
                    (cell_at gap_frame (data_start_row + i) (data_col_start + 0))
           = Some od_val
        /\ nth_error (contribution text_is_no_number gap_frame
                                   [0; 30; 60]%float (0, "A1"%string)) i
           = Some (make_row "A1" (time_min, od_val)).
Proof.
  apply (@accepted_well_aligned text_is_no_number number_as_text gap_frame
           ["A1"; "A2"]%string [0; 30; 60]%float 0 "A1"%string).
  - vm_compute. reflexivity.
  - vm_compute. reflexivity.
  - reflexivity.
  - vm_compute. reflexivity.
Defined.

Lemma emitted_row_units_witness :
  exists (well_idx : nat) (well_name : string) (i : nat)
         (time_min od_val : float),
    nth_error ["A1"; "A2"]%string well_idx = Some well_name
    /\ nth_error [0; 30; 60]%float i = Some time_min
    /\ py_float text_is_no_number
                (cell_at gap_frame (data_start_row + i)
                         (data_col_start + well_idx))
       = Some od_val
    /\ Well (make_row "A1" (30, 0.15)%float) = well_name
    /\ Time_s (make_row "A1" (30, 0.15)%float) = round (time_min * 60) 1
    /\ Time_h (make_row "A1" (30, 0.15)%float) = round (time_min / 60) 3
    /\ OD (make_row "A1" (30, 0.15)%float) = round od_val 4
    /\ (is_finite time_min = true ->
        (Qabs (F2Q time_min) <= 2 ^ 40)%Q ->
        (Qabs (F2Q (Time_h (make_row "A1" (30, 0.15)%float))
               - F2Q (Time_s (make_row "A1" (30, 0.15)%float)) / 3600)
         <= 1 # 1000)%Q
        /\ (Qabs (F2Q (Time_s (make_row "A1" (30, 0.15)%float))
                  - F2Q time_min * 60) <= 1 # 10)%Q).
Proof.
  apply (@emitted_row_units text_is_no_number number_as_text gap_frame
           ["A1"; "A2"]%string [0; 30; 60]%float
           (map (make_row "A1")
                [(0, 0.1); (30, 0.15); (60, 0.2)]%float)).
  - vm_compute. reflexivity.
  - vm_compute. reflexivity.
  - vm_compute. reflexivity.
  - right. left. reflexivity.
Defined.

(** The tolerances of the unit derivation fail for a large time: with one
    timepoint of 2^53 - 1 minutes the emitted row has Time_h more than
    1e-3 away from Time_s / 3600, and Time_s more than 1e-1 away from
    sixty times the source time. *)
Lemma tolerance_fails_for_huge_time :
  extract_time_minutes text_is_no_number huge_time_frame
  = Ok [9007199254740991%float]
  /\ convert_rows text_is_no_number number_as_text huge_time_frame
     = Ok [huge_row]
  /\ huge_row = make_row "A1" (9007199254740991, 0.1)%float
  /\ is_finite 9007199254740991 = true
  /\ ~ (Qabs (F2Q (Time_h huge_row) - F2Q (Time_s huge_row) / 3600)
        <= 1 # 1000)%Q
  /\ ~ (Qabs (F2Q (Time_s huge_row) - F2Q 9007199254740991 * 60)
        <= 1 # 10)%Q
  /\ (abs (Time_h huge_row - Time_s huge_row / 3600) <=? 0.001)%float = false.
Proof.
  split; [vm_compute; reflexivity |].
  split; [vm_compute; reflexivity |].
  split; [vm_compute; reflexivity |].
  split; [vm_compute; reflexivity |].
  split; [apply Qlt_not_le; vm_compute; reflexivity |].
  split; [apply Qlt_not_le; vm_compute; reflexivity |].
  vm_compute. reflexivity.
Qed.

Lemma empty_output_is_failure_witness :
  (exists e : exn,
      convert_rows text_is_no_number number_as_text no_well_frame = Raise e)
  /\ convert_bacterial_growth_data text_is_no_number number_as_text
                                   (Ok no_well_frame) (fun _ => Ok tt)
     = false.
Proof.
  apply (proj1 (@empty_output_is_failure text_is_no_number number_as_text
                  no_well_frame (fun _ => Ok tt))).
  right. left. vm_compute. reflexivity.
Defined.

Lemma output_stably_sorted_witness :
  exists output_data : list Row,
    extract_output_data text_is_no_number number_as_text unsorted_frame
    = Ok output_data
    /\ sample_rows_B1 = sort_values output_data
    /\ Permutation output_data sample_rows_B1
    /\ StronglySorted row_le sample_rows_B1
    /\ Sorted row_le sample_rows_B1
    /\ (forall key : Row,
           filter (same_key key) sample_rows_B1
           = filter (same_key key) output_data)
    /\ (forall (well_names : list string) (time_minutes : list float),
           extract_well_names number_as_text unsorted_frame = Ok well_names ->
           extract_time_minutes text_is_no_number unsorted_frame
           = Ok time_minutes ->
           NoDup well_names ->
           distinct_times time_minutes ->
           forall key : Row,
             length (filter (same_key key) sample_rows_B1) <= 1).
Proof.
  apply (@output_stably_sorted text_is_no_number number_as_text unsorted_frame
           sample_rows_B1).
  vm_compute. reflexivity.
Defined.

(** Two rows can share a key although no timepoint is repeated: two
    header cells that name the same well give rows with the same Well and
    the same Time_s. *)
Lemma equal_keys_without_duplicate_timepoints :
  extract_time_minutes text_is_no_number twin_frame = Ok [0%float]
  /\ NoDup [0%float]
  /\ convert_rows text_is_no_number number_as_text twin_frame = Ok twin_rows
  /\ (exists r1 r2 : Row,
         twin_rows = [r1; r2] /\ r1 <> r2 /\ same_key r1 r2 = true).
Proof.
  split; [vm_compute; reflexivity |].
  split; [constructor; [intros [] | constructor] |].
  split; [vm_compute; reflexivity |].
  eexists. eexists. split; [reflexivity |].
  split; [| vm_compute; reflexivity].
  intros H. apply (f_equal OD) in H. cbn [OD] in H.
  apply (f_equal Prim2SF) in H. vm_compute in H. discriminate H.
Qed.

Lemma conversion_reads_data_block_only_witness :
  convert_rows text_is_no_number number_as_text (example_frame blank)
  = convert_rows text_is_no_number number_as_text (example_frame titled)
  /\ convert_bacterial_growth_data text_is_no_number number_as_text
       (Ok (example_frame blank)) (fun _ => Ok tt)
     = convert_bacterial_growth_data text_is_no_number number_as_text
         (Ok (example_frame titled)) (fun _ => Ok tt).
Proof.
  apply (@conversion_reads_data_block_only text_is_no_number number_as_text
           (example_frame blank) (example_frame titled) (fun _ => Ok tt)).
  unfold same_data, header_row, data_start_row, data_col_start, time_col.
  cbn [nrows ncols example_frame].
  repeat split.
  - intros c Hc. assert (E : c = 2 \/ c = 3) by lia.
    destruct E as [-> | ->]; reflexivity.
  - intros r Hr. assert (E : r = 9 \/ r = 10 \/ r = 11) by lia.
    destruct E as [-> | [-> | ->]]; reflexivity.
  - intros r c Hr Hc.
    assert (Er : r = 9 \/ r = 10 \/ r = 11) by lia.
    assert (Ec : c = 2 \/ c = 3) by lia.
    destruct Er as [-> | [-> | ->]]; destruct Ec as [-> | ->]; reflexivity.
Defined.

Lemma output_row_count_witness :
  exists output_data : list Row,
    extract_output_data text_is_no_number number_as_text gap_frame
    = Ok output_data
    /\ length output_data
       = length (filter (accepted text_is_no_number gap_frame
                                  (length [0; 30; 60]%float))
                        (enumerate ["A1"; "A2"]%string))
         * length [0; 30; 60]%float
    /\ length output_data
       <= length ["A1"; "A2"]%string * length [0; 30; 60]%float
    /\ (0 < length [0; 30; 60]%float ->
        length output_data
        = length ["A1"; "A2"]%string * length [0; 30; 60]%float ->
        forall well_idx,
          well_idx < length ["A1"; "A2"]%string ->
          complete text_is_no_number gap_frame (length [0; 30; 60]%float)
                   well_idx).
Proof.
  apply (@output_row_count text_is_no_number number_as_text gap_frame
           ["A1"; "A2"]%string [0; 30; 60]%float).
  - vm_compute. reflexivity.
  - vm_compute. reflexivity.
Defined.

Lemma od_rounding_error_witness :
  (Qabs (F2Q (OD (make_row "A1" (30, 0.15)%float)) - F2Q 0.15%float)
   <= (1 # 20000) + 2 ^ (-42))%Q.
Proof.
  apply (@od_rounding_error "A1" 30%float 0.15%float).
  - vm_compute. reflexivity.
  - vm_compute. discriminate.
Defined.

Lemma main_success_output_witness :
  exists (script excel_file output_csv : string) (df : DataFrame)
         (output_df : list Row),
    ["bacterial_growth_converter.py"; "plate.xls"; "growth_data.csv"]%string
    = [script; excel_file; output_csv]
    /\ read_excel_at sample_world excel_file = Ok df
    /\ convert_rows text_is_no_number number_as_text df = Ok output_df
    /\ to_csv_at sample_world output_csv output_df = Ok tt
    /\ output_df <> []
    /\ StronglySorted row_le output_df.
Proof.
  apply (@main_success_output text_is_no_number number_as_text sample_world
           ["bacterial_growth_converter.py"; "plate.xls";
            "growth_data.csv"]%string).
  vm_compute. reflexivity.
Defined.

Lemma loop_guards_never_fire_witness :
  (forall well_idx well_name,
      In (well_idx, well_name) (enumerate ["A1"; "A2"]%string) ->
      (ncols gap_frame <=? data_col_start + well_idx) = false)
  /\ (forall row_idx time_min,
         In (row_idx, time_min) (enumerate [0; 30; 60]%float) ->
         (data_start_row + row_idx <? nrows gap_frame) = true)
  /\ length ["A1"; "A2"]%string <= ncols gap_frame - data_col_start
  /\ length [0; 30; 60]%float <= nrows gap_frame - data_start_row.
Proof.
  apply (@loop_guards_never_fire text_is_no_number number_as_text gap_frame
           ["A1"; "A2"]%string [0; 30; 60]%float).
  - vm_compute. reflexivity.
  - vm_compute. reflexivity.
Defined.

Lemma output_grouped_by_well_witness :
  Forall (fun r => Well r = Well (make_row "A1" (0, 0.1)%float))
         [make_row "A1" (30, 0.15)%float].
Proof.
  apply (@output_grouped_by_well text_is_no_number number_as_text
           (example_frame blank) []
           [make_row "A1" (30, 0.15)%float]
           (map (make_row "A2") [(0, 0.11); (30, 0.16); (60, 0.21)]%float)
           (make_row "A1" (0, 0.1)%float)
           (make_row "A1" (60, 0.2)%float)).
  - vm_compute. reflexivity.
  - reflexivity.
Defined.

(** ** Properties of [validate_csv_output] *)

Lemma in_columns_In (col : string) (df : CsvFrame) :
  in_columns col df = true <-> In col (columns df).
Proof.
  unfold in_columns. rewrite existsb_exists. split.
  - intros [x [Hx Heq]]. apply String.eqb_eq in Heq. subst x. exact Hx.
  - intros H. exists col. split; [exact H | apply String.eqb_refl].
Qed.

Lemma in_columns_not_In (col : string) (df : CsvFrame) :
  in_columns col df = false <-> ~ In col (columns df).
Proof.
  rewrite <- in_columns_In. destruct (in_columns col df); split; intros H.
  - discriminate H.
  - exfalso. apply H. reflexivity.
  - discriminate.
  - reflexivity.
Qed.

Lemma getitem_present (df : CsvFrame) (col : string) :
  in_columns col df = true -> exists d : dtype, getitem df col = Ok d.
Proof.
  unfold in_columns, columns. induction df as [| [name d] df IH]; simpl.
  - discriminate.
  - rewrite String.eqb_sym. destruct (String.eqb name col).
    + intros _. exists d. reflexivity.
    + simpl. exact IH.
Qed.

(** C9: on a CSV file that could be read, the validation returns False
    exactly when one of the columns Well, Time_s, Time_h, OD is absent, or
    when one of the columns Time_s, Time_h, OD has a type that pandas does
    not count as numeric; it returns True otherwise. *)
Theorem validate_false_iff (df : CsvFrame) :
  (validate_csv_output (Ok df) = false <->
   (exists col : string, In col required_columns /\ ~ In col (columns df))
   \/ (exists (col : string) (d : dtype),
          In col ["Time_s"; "Time_h"; "OD"]%string
          /\ getitem df col = Ok d
          /\ is_numeric_dtype d = false))
  /\ (validate_csv_output (Ok df) = true <->
      (forall col : string, In col required_columns -> In col (columns df))
      /\ (forall (col : string) (d : dtype),
             In col ["Time_s"; "Time_h"; "OD"]%string ->
             getitem df col = Ok d -> is_numeric_dtype d = true)).
Proof.
  assert (Hfalse :
    validate_csv_output (Ok df) = false <->
    (exists col : string, In col required_columns /\ ~ In col (columns df))
    \/ (exists (col : string) (d : dtype),
           In col ["Time_s"; "Time_h"; "OD"]%string
           /\ getitem df col = Ok d
           /\ is_numeric_dtype d = false)).
  { unfold validate_csv_output, validate_body, required_columns.
    cbn [bind filter].
    destruct (in_columns "Well" df) eqn:Hw; cbn [negb];
      [| split; [intros _ | reflexivity];
         left; exists "Well"%string; split;
         [simpl; auto | apply in_columns_not_In, Hw]].
    destruct (in_columns "Time_s" df) eqn:Hs; cbn [negb];
      [| split; [intros _ | reflexivity];
         left; exists "Time_s"%string; split;
         [simpl; auto | apply in_columns_not_In, Hs]].
    destruct (in_columns "Time_h" df) eqn:Hh; cbn [negb];
      [| split; [intros _ | reflexivity];
         left; exists "Time_h"%string; split;
         [simpl; auto | apply in_columns_not_In, Hh]].
    destruct (in_columns "OD" df) eqn:Ho; cbn [negb];
      [| split; [intros _ | reflexivity];
         left; exists "OD"%string; split;
         [simpl; auto | apply in_columns_not_In, Ho]].
    destruct (getitem_present df "Time_s" Hs) as [ds Es].
    destruct (getitem_present df "Time_h" Hh) as [dh Eh].
    destruct (getitem_present df "OD" Ho) as [do Eo].
    rewrite Es. cbn [bind].
    destruct (is_numeric_dtype ds) eqn:Ns; cbn [negb];
      [| split; [intros _ | reflexivity];
         right; exists "Time_s"%string, ds; simpl; auto].
    rewrite Eh. cbn [bind].
    destruct (is_numeric_dtype dh) eqn:Nh; cbn [negb];
      [| split; [intros _ | reflexivity];
         right; exists "Time_h"%string, dh; simpl; auto].
    rewrite Eo. cbn [bind].
    destruct (is_numeric_dtype do) eqn:No; cbn [negb];
      [| split; [intros _ | reflexivity];
         right; exists "OD"%string, do; simpl; auto].
    split; [discriminate |].
    intros [[col [Hin Hmiss]] | [col [d [Hin [Hget Hnum]]]]].
    - exfalso. apply Hmiss. simpl in Hin.
      destruct Hin as [<- | [<- | [<- | [<- | []]]]];
        apply in_columns_In; assumption.
    - simpl in Hin. destruct Hin as [<- | [<- | [<- | []]]];
        congruence. }
  split; [exact Hfalse |].
  split.
  - intros Htrue. split.
    + intros col Hin.
      destruct (in_columns col df) eqn:Hc; [apply in_columns_In, Hc |].
      exfalso. apply in_columns_not_In in Hc.
      assert (Hf : validate_csv_output (Ok df) = false)
        by (apply Hfalse; left; exists col; auto).
      congruence.
    + intros col d Hin Hget.
      destruct (is_numeric_dtype d) eqn:Hn; [reflexivity |].
      assert (Hf : validate_csv_output (Ok df) = false)
        by (apply Hfalse; right; exists col, d; auto).
      congruence.
  - intros [Hall Hnum].
    apply not_false_iff_true. intros Hv. apply Hfalse in Hv.
    destruct Hv as [[col [Hin Hmiss]] | [col [d [Hin [Hget Hd]]]]].
    + exfalso. apply Hmiss, Hall, Hin.
    + rewrite (Hnum col d Hin Hget) in Hd. discriminate Hd.
Qed.
(** *** Columns the validation does not look at *)

Lemma in_columns_insert (col name : string) (d : dtype) (df1 df2 : CsvFrame) :
  col <> name ->
  in_columns col (df1 ++ (name, d) :: df2) = in_columns col (df1 ++ df2).
Proof.
  intros Hne. unfold in_columns, columns.
  rewrite !map_app, !existsb_app. cbn [map existsb fst].
  apply String.eqb_neq in Hne. rewrite Hne. reflexivity.
Qed.

Lemma getitem_insert (col name : string) (d : dtype) (df1 df2 : CsvFrame) :
  col <> name ->
  getitem (df1 ++ (name, d) :: df2) col = getitem (df1 ++ df2) col.
Proof.
  intros Hne. induction df1 as [| [n0 d0] df1 IH]; cbn [app getitem].
  - assert (E : String.eqb name col = false)
      by (apply String.eqb_neq; intros E; apply Hne; symmetry; exact E).
    rewrite E. reflexivity.
  - rewrite IH. reflexivity.
Qed.

Lemma getitem_retype (col name : string) (d d' : dtype) (df1 df2 : CsvFrame) :
  col <> name ->
  getitem (df1 ++ (name, d) :: df2) col = getitem (df1 ++ (name, d') :: df2) col.
Proof.
  intros Hne. rewrite !getitem_insert by exact Hne. reflexivity.
Qed.

(** The verdict depends on the frame only through the presence of the four
    required columns and the types of the three numeric ones. *)
Lemma validate_body_ext (df df' : CsvFrame) :
  (forall col, In col required_columns ->
               in_columns col df = in_columns col df') ->
  (forall col, In col ["Time_s"; "Time_h"; "OD"]%string ->
               getitem df col = getitem df' col) ->
  validate_body df = validate_body df'.
Proof.
  intros Hin Hget. unfold validate_body, required_columns in *.
  cbn [filter].
  rewrite (Hin "Well"%string), (Hin "Time_s"%string), (Hin "Time_h"%string),
    (Hin "OD"%string) by (simpl; auto).
  rewrite (Hget "Time_s"%string), (Hget "Time_h"%string), (Hget "OD"%string)
    by (simpl; auto).
  reflexivity.
Qed.

(** X9: a column that is none of Well, Time_s, Time_h, OD has no part in
    the verdict: the validation answers the same with and without it,
    wherever it stands in the file and whatever its type. *)
Theorem validate_ignores_other_columns (df1 df2 : CsvFrame)
        (name : string) (d : dtype) :
  ~ In name required_columns ->
  validate_csv_output (Ok (df1 ++ (name, d) :: df2))
  = validate_csv_output (Ok (df1 ++ df2)).
Proof.
  intros Hname. unfold validate_csv_output. cbn [bind].
  rewrite (@validate_body_ext (df1 ++ (name, d) :: df2) (df1 ++ df2));
    [reflexivity | |].
  - intros col Hcol. apply in_columns_insert.
    intros ->. apply Hname, Hcol.
  - intros col Hcol. apply getitem_insert.
    intros ->. apply Hname. simpl in Hcol. simpl. tauto.
Qed.

(** X10: the type of the column Well is never looked at: two files that
    differ only in it get the same verdict. *)
Theorem validate_ignores_well_dtype (df1 df2 : CsvFrame) (d d' : dtype) :
  validate_csv_output (Ok (df1 ++ ("Well"%string, d) :: df2))
  = validate_csv_output (Ok (df1 ++ ("Well"%string, d') :: df2)).
Proof.
  unfold validate_csv_output. cbn [bind].
  rewrite (@validate_body_ext (df1 ++ ("Well"%string, d) :: df2)
                              (df1 ++ ("Well"%string, d') :: df2));
    [reflexivity | |].
  - intros col _. unfold in_columns, columns.
    rewrite !map_app. reflexivity.
  - intros col Hcol. apply getitem_retype.
    simpl in Hcol. destruct Hcol as [<- | [<- | [<- | []]]]; discriminate.
Qed.

(** *** The order of the columns *)

Lemma in_columns_perm (col : string) (df df' : CsvFrame) :
  Permutation df df' -> in_columns col df = in_columns col df'.
Proof.
  intros Hp.
  assert (Hc : Permutation (columns df) (columns df'))
    by (apply Permutation_map; exact Hp).
  destruct (in_columns col df') eqn:E.
  - apply in_columns_In. apply in_columns_In in E.
    apply Permutation_in with (columns df'); [symmetry; exact Hc | exact E].
  - apply in_columns_not_In. apply in_columns_not_In in E.
    intros H. apply E. apply Permutation_in with (columns df); assumption.
Qed.

Lemma getitem_absent (df : CsvFrame) (col : string) :
  ~ In col (columns df) -> getitem df col = Raise KeyError.
Proof.
  induction df as [| [name d] df IH]; cbn [getitem columns map fst In];
    intros H.
  - reflexivity.
  - destruct (String.eqb name col) eqn:E.
    + apply String.eqb_eq in E. exfalso. apply H. left. exact E.
    + apply IH. intros Hin. apply H. right. exact Hin.
Qed.

Lemma getitem_perm (col : string) (df df' : CsvFrame) :
  Permutation df df' -> NoDup (columns df) ->
  getitem df col = getitem df' col.
Proof.
  induction 1 as [| [name d] l l' Hp IH | [n1 d1] [n2 d2] l | l l' l'' Hp1 IH1 Hp2 IH2];
    intros Hnd.
  - reflexivity.
  - cbn [getitem]. cbn [columns map fst] in Hnd.
    inversion Hnd; subst. rewrite IH by assumption. reflexivity.
  - cbn [getitem]. cbn [columns map fst] in Hnd.
    inversion Hnd as [| ? ? Hnotin _]; subst.
    destruct (String.eqb n1 col) eqn:E1; destruct (String.eqb n2 col) eqn:E2;
      try reflexivity.
    apply String.eqb_eq in E1. apply String.eqb_eq in E2. subst.
    exfalso. apply Hnotin. left. reflexivity.
  - rewrite IH1 by exact Hnd. apply IH2.
    apply Permutation_NoDup with (columns l); [| exact Hnd].
    apply Permutation_map. exact Hp1.
Qed.

(** X11: the verdict does not depend on the order of the columns of the
    file, when no two columns have the same name. *)
Theorem validate_column_order (df df' : CsvFrame) :
  NoDup (columns df) ->
  Permutation df df' ->
  validate_csv_output (Ok df) = validate_csv_output (Ok df').
Proof.
  intros Hnd Hp. unfold validate_csv_output. cbn [bind].
  rewrite (@validate_body_ext df df'); [reflexivity | |].
  - intros col _. apply in_columns_perm. exact Hp.
  - intros col _. apply getitem_perm; assumption.
Qed.

Lemma validate_ignores_other_columns_witness :
  validate_csv_output
    (Ok ([("Well", object_); ("Time_s", float64)]%string
         ++ ("Note"%string, object_)
         :: [("Time_h", float64); ("OD", float64)]%string))
  = validate_csv_output
      (Ok ([("Well", object_); ("Time_s", float64)]%string
           ++ [("Time_h", float64); ("OD", float64)]%string)).
Proof.
  apply (@validate_ignores_other_columns
           [("Well", object_); ("Time_s", float64)]%string
           [("Time_h", float64); ("OD", float64)]%string
           "Note"%string object_).
  simpl. intros [H | [H | [H | [H | []]]]]; discriminate H.
Defined.

Lemma validate_column_order_witness :
  validate_csv_output
    (Ok [("Well", object_); ("Time_s", float64)]%string)
  = validate_csv_output
      (Ok [("Time_s", float64); ("Well", object_)]%string).
Proof.
  apply (@validate_column_order
           [("Well", object_); ("Time_s", float64)]%string
           [("Time_s", float64); ("Well", object_)]%string).
  - repeat constructor; simpl; intros H;
      repeat (destruct H as [H | H]; [discriminate H |]); exact H.
  - apply perm_swap.
Defined.
